(** * ghq: a shallow embedding of [commands.go]

    The commands of ghq ([get], [list], [look], [starred], [pocket]) are
    embedded as executable Rocq functions over an explicit world (file-system
    oracles, environment, discovered repositories) and an output trace.

    Layout:
    - Go values and the parts of the Go standard library that [commands.go]
      calls ([strings], [net/url], [os]);
    - the collaborators of this repository that live in other files
      ([utils], [RemoteRepository], [LocalRepository], the walker);
    - the command functions themselves, translated from [commands.go];
    - the properties. *)

From Stdlib Require Import ZArith Ascii String List Bool Lia.
From stdpp Require Import base option strings list gmap sorting.

Local Open Scope Z_scope.

(* ===================================================================== *)
(** ** Go strings

    A Go [string] is a sequence of bytes; [String.string] is a sequence of
    [ascii] (8-bit) characters, so indexing and slicing agree. *)
(* ===================================================================== *)

Module strings.

(** [strings.HasPrefix(s, prefix)]. *)
Definition HasPrefix (s prefix : string) : bool := String.prefix prefix s.

(** [strings.Contains(s, substr)]: [substr] occurs at some offset of [s]. *)
Fixpoint Contains (s substr : string) : bool :=
  String.prefix substr s ||
  match s with
  | EmptyString => false
  | String _ s' => Contains s' substr
  end.

(** [strings.Join(a, sep)]. *)
Definition Join (a : list string) (sep : string) : string :=
  String.concat sep a.

(** [strings.Split(s, sep)] for a one-byte separator, the only use in
    [commands.go] ([sep = "/"]): the pieces between the separators, in
    order; a string without separator is a single piece, and so is the
    empty string. *)
Fixpoint Split (s : string) (sep : ascii) : list string :=
  match s with
  | EmptyString => [EmptyString]
  | String c s' =>
      if Ascii.eqb c sep then EmptyString :: Split s' sep
      else match Split s' sep with
           | [] => [String c EmptyString]
           | piece :: pieces => String c piece :: pieces
           end
  end.

(** [strings.ToLower] on ASCII letters. *)
Definition lower (c : ascii) : ascii :=
  let n := N_of_ascii c in
  if ((65 <=? n) && (n <=? 90))%N then ascii_of_N (n + 32) else c.

Fixpoint ToLower (s : string) : string :=
  match s with
  | EmptyString => EmptyString
  | String c s' => String (lower c) (ToLower s')
  end.

End strings.

(* ===================================================================== *)
(** ** Go errors *)
(* ===================================================================== *)

(** The dynamic error values that reach [commands.go]. *)
Inductive error : Type :=
  | errorString (s : string)                    (* errors.New / fmt.Errorf *)
  | EscapeError (s : string)                    (* url.EscapeError *)
  | url_Error (op url : string) (err : error)   (* *url.Error *)
  | PathError (op path : string) (err : error)  (* *os.PathError *)
  | Errno (n : Z).                              (* syscall.Errno *)

Fixpoint error_eqb (e1 e2 : error) : bool :=
  match e1, e2 with
  | errorString a, errorString b => String.eqb a b
  | EscapeError a, EscapeError b => String.eqb a b
  | url_Error o1 u1 a, url_Error o2 u2 b =>
      String.eqb o1 o2 && String.eqb u1 u2 && error_eqb a b
  | PathError o1 p1 a, PathError o2 p2 b =>
      String.eqb o1 o2 && String.eqb p1 p2 && error_eqb a b
  | Errno a, Errno b => Z.eqb a b
  | _, _ => false
  end.

(** What a Go call can do besides returning: [os.Exit] and [panic]. *)
Inductive PanicValue : Type :=
  | PanicError (err : error)     (* panic(err) *)
  | IndexOutOfRange.             (* runtime error: index out of range *)

(* ===================================================================== *)
(** ** net/url (Go standard library, as of the Go 1.2 line the repository
       was written against): [url.Parse] and [URL.IsAbs]. *)
(* ===================================================================== *)

Module url.

Record Userinfo : Type := mkUserinfo {
  username : string;
  password : string;
  passwordSet : bool
}.

Record URL : Type := mkURL {
  Scheme : string;
  Opaque : string;
  User : option Userinfo;
  Host : string;
  Path : string;
  RawQuery : string;
  Fragment : string
}.

Definition empty : URL := mkURL "" "" None "" "" "" "".

Definition with_Scheme (s : string) (u : URL) : URL :=
  mkURL s (Opaque u) (User u) (Host u) (Path u) (RawQuery u) (Fragment u).
Definition with_Host (h : string) (u : URL) : URL :=
  mkURL (Scheme u) (Opaque u) (User u) h (Path u) (RawQuery u) (Fragment u).
Definition with_Path (p : string) (u : URL) : URL :=
  mkURL (Scheme u) (Opaque u) (User u) (Host u) p (RawQuery u) (Fragment u).
Definition with_Fragment (f : string) (u : URL) : URL :=
  mkURL (Scheme u) (Opaque u) (User u) (Host u) (Path u) (RawQuery u) f.

Inductive encoding : Type :=
  encodePath | encodeUserPassword | encodeQueryComponent | encodeFragment.

Definition is_encodeQueryComponent (m : encoding) : bool :=
  match m with encodeQueryComponent => true | _ => false end.

Definition between (lo hi : N) (c : ascii) : bool :=
  let n := N_of_ascii c in ((lo <=? n) && (n <=? hi))%N.

(** ['0'..'9'], ['a'..'f'], ['A'..'F']. *)
Definition ishex (c : ascii) : bool :=
  between 48 57 c || between 97 102 c || between 65 70 c.

Definition unhex (c : ascii) : N :=
  let n := N_of_ascii c in
  if between 48 57 c then (n - 48)%N
  else if between 97 102 c then (n - 97 + 10)%N
  else if between 65 70 c then (n - 65 + 10)%N
  else 0%N.

(** [s[0:3]] when [len(s) > 3], else [s]: the text of an [EscapeError]. *)
Definition escape_text (s : string) : string :=
  if (3 <? String.length s)%nat then String.substring 0 3 s else s.

(** [unescape(s, mode)]: percent-decoding; a ['%'] that is not followed by
    two hex digits is an [EscapeError] (the leftmost one is reported). *)
Fixpoint unescape (s : string) (mode : encoding) : error + string :=
  match s with
  | EmptyString => inr EmptyString
  | String c rest =>
      if Ascii.eqb c "%"%char then
        match rest with
        | String h1 (String h2 rest') =>
            if ishex h1 && ishex h2 then
              match unescape rest' mode with
              | inl e => inl e
              | inr t => inr (String (ascii_of_N (unhex h1 * 16 + unhex h2)) t)
              end
            else inl (EscapeError (escape_text s))
        | _ => inl (EscapeError (escape_text s))
        end
      else
        match unescape rest mode with
        | inl e => inl e
        | inr t =>
            if Ascii.eqb c "+"%char && is_encodeQueryComponent mode
            then inr (String " "%char t)
            else inr (String c t)
        end
  end.

(** [split(s, c, cutc)]: cut [s] at the first [c]; without [c] the second
    half is empty. With [cutc] the separator is dropped, else it stays at
    the head of the second half. *)
Fixpoint split (s : string) (c : ascii) (cutc : bool) : string * string :=
  match s with
  | EmptyString => (EmptyString, EmptyString)
  | String a s' =>
      if Ascii.eqb a c then (EmptyString, if cutc then s' else s)
      else let '(l, r) := split s' c cutc in (String a l, r)
  end.

(** [strings.LastIndex(s, c)] followed by [s[:i], s[i+1:]]. *)
Fixpoint cut_last (s : string) (c : ascii) : option (string * string) :=
  match s with
  | EmptyString => None
  | String a s' =>
      match cut_last s' c with
      | Some (l, r) => Some (String a l, r)
      | None => if Ascii.eqb a c then Some (EmptyString, s') else None
      end
  end.

Inductive scheme_scan : Type :=
  | NoScheme
  | MissingScheme
  | FoundScheme (scheme rest : string).

(** The loop of [getscheme]; [first] says that the index is 0. *)
Fixpoint getscheme_loop (first : bool) (s : string) : scheme_scan :=
  match s with
  | EmptyString => NoScheme
  | String c s' =>
      let continue :=
        match getscheme_loop false s' with
        | FoundScheme sch rest => FoundScheme (String c sch) rest
        | other => other
        end in
      if between 97 122 c || between 65 90 c then continue
      else if between 48 57 c || Ascii.eqb c "+"%char
              || Ascii.eqb c "-"%char || Ascii.eqb c "."%char
      then (if first then NoScheme else continue)
      else if Ascii.eqb c ":"%char
      then (if first then MissingScheme else FoundScheme EmptyString s')
      else NoScheme
  end.

Definition getscheme (rawurl : string) : error + (string * string) :=
  match getscheme_loop true rawurl with
  | NoScheme => inr (EmptyString, rawurl)
  | MissingScheme => inl (errorString "missing protocol scheme")
  | FoundScheme sch rest => inr (sch, rest)
  end.

(** [parseAuthority]: [user[:password]@host]. *)
Definition parseAuthority (authority : string)
  : error + (option Userinfo * string) :=
  match cut_last authority "@"%char with
  | None => inr (None, authority)
  | Some (userinfo, host) =>
      if negb (strings.Contains userinfo ":") then
        match unescape userinfo encodeUserPassword with
        | inl e => inl e
        | inr u => inr (Some (mkUserinfo u "" false), host)
        end
      else
        let '(usr, pwd) := split userinfo ":"%char true in
        match unescape usr encodeUserPassword with
        | inl e => inl e
        | inr u =>
            match unescape pwd encodeUserPassword with
            | inl e => inl e
            | inr p => inr (Some (mkUserinfo u p true), host)
            end
        end
  end.

(** [parse(rawurl, viaRequest)]; every error is wrapped as
    [&Error{"parse", rawurl, err}]. *)
Definition parse (rawurl : string) (viaRequest : bool) : error + URL :=
  let Error err := inl (url_Error "parse" rawurl err) in
  if String.eqb rawurl "" && viaRequest then Error (errorString "empty url")
  else if String.eqb rawurl "*" then inr (with_Path "*" empty)
  else
    match getscheme rawurl with
    | inl err => Error err
    | inr (scheme, rest) =>
        let scheme := strings.ToLower scheme in
        let '(rest, query) := split rest "?"%char true in
        let u := mkURL scheme "" None "" "" query "" in
        if negb (strings.HasPrefix rest "/") && negb (String.eqb scheme "")
        then inr (mkURL scheme rest None "" "" query "")
        else if negb (strings.HasPrefix rest "/") && viaRequest
        then Error (errorString "invalid URI for request")
        else
          let authority_rest :=
            if (negb (String.eqb scheme "")
                || negb viaRequest && negb (strings.HasPrefix rest "///"))
               && strings.HasPrefix rest "//"
            then
              let '(authority, rest') :=
                split (String.substring 2 (String.length rest - 2) rest)
                      "/"%char false in
              match parseAuthority authority with
              | inl err => inl err
              | inr (user, host) =>
                  if strings.Contains host "%"
                  then inl (errorString "hexadecimal escape in host")
                  else inr (user, host, rest')
              end
            else inr (None, EmptyString, rest) in
          match authority_rest with
          | inl err => Error err
          | inr (user, host, rest) =>
              match unescape rest encodePath with
              | inl err => Error err
              | inr path => inr (mkURL scheme "" user host path query "")
              end
          end
    end.

(** [url.Parse(rawurl)]: the fragment is cut off first and unescaped last. *)
Definition Parse (rawurl : string) : error + URL :=
  let '(u, frag) := split rawurl "#"%char true in
  match parse u false with
  | inl err => inl err
  | inr url =>
      if String.eqb frag "" then inr url
      else match unescape frag encodeFragment with
           | inl err => inl (url_Error "parse" rawurl err)
           | inr f => inr (with_Fragment f url)
           end
  end.

(** [URL.IsAbs]. *)
Definition IsAbs (u : URL) : bool := negb (String.eqb (Scheme u) "").

End url.

(* ===================================================================== *)
(** ** The world the commands run in *)
(* ===================================================================== *)

(** The closed set of version-control backends. *)
Inductive VCSBackend : Type := GitBackend | MercurialBackend | SubversionBackend.

(** [LocalRepository] (declared in another file of the repository): the
    three fields that [commands.go] reads. *)
Record LocalRepository : Type := mkLocalRepository {
  FullPath : string;
  RelPath : string;
  PathParts : list string
}.

(** [github.Repository]: only [HTMLURL], a [*string], is read. *)
Record Repository : Type := mkRepository { HTMLURL : option string }.

(** [github.Response]: only [LastPage] is read. *)
Record Response : Type := mkResponse { LastPage : Z }.

(** An item of the Pocket retrieve result: only [ResolvedURL] is read. *)
Record PocketItem : Type := mkPocketItem { ResolvedURL : string }.

(** The answers of the Pocket authorization calls of [DoPocket]. *)
Record PocketService : Type := mkPocketService {
  StartAccessTokenReceiver : string * option error;   (* receiverURL, err *)
  ObtainRequestToken : string -> string * option error;        (* Code, err *)
  GenerateAuthorizationURL : string -> string -> string;
  ObtainAccessToken : string -> (string * string) * option error;
                                          (* (Username, AccessToken), err *)
  RetrieveGitHubEntries : string -> list PocketItem * option error
}.

(** Everything outside the process that the commands consult. *)
Record World : Type := mkWorld {
  root : string;                          (* primary local repository root *)
  stat : string -> option error;          (* os.Stat(path): its error *)
  chdir : string -> option error;         (* os.Chdir(path): its error *)
  getenv : string -> string;              (* os.Getenv(key) *)
  exec : string -> option error;          (* syscall.Exec: None replaces the process *)
  detectKind : string -> option VCSBackend;   (* VCS metadata found at a path *)
  repositories : list LocalRepository;    (* what the walker discovers, in order *)
  ListStarred : string -> Z -> error + (list Repository * Response);
  GitConfig : string -> string * option error;
  pocket : PocketService
}.

(** Arguments of a [fmt.Sprintf] call, kept unrendered. *)
Inductive Arg : Type :=
  | ArgString (s : string)
  | ArgStringPtr (p : option string)
  | ArgURL (u : url.URL)
  | ArgError (e : error)
  | ArgInt (n : Z).

Inductive Message : Type :=
  | Text (s : string)
  | ErrorText (e : error)                          (* err.Error() *)
  | Sprintf (format : string) (args : list Arg).   (* fmt.Sprintf(format, args...) *)

(** What a command does that is observable from outside. *)
Inductive Event : Type :=
  | Log (prefix : string) (msg : Message)       (* utils.Log *)
  | Println (s : string)                        (* fmt.Println *)
  | ShowCommandHelp (command : string)          (* cli.ShowCommandHelp *)
  | Clone (vcs : VCSBackend) (remote : url.URL) (path : string)
          (result : option error)
  | Update (vcs : option VCSBackend) (path : string) (result : option error)
  | Chdir (path : string) (result : option error)
  | Exec (argv0 : string) (argv : list string) (result : option error)
  | Run (command : string) (args : list string).   (* utils.Run *)

(** How a Go function ends. *)
Inductive Outcome (A : Type) : Type :=
  | Return (a : A)
  | Exit (code : Z)              (* os.Exit(code) *)
  | Panic (v : PanicValue)       (* an unrecovered panic *)
  | Replaced                     (* syscall.Exec succeeded *)
  | OutOfFuel.                   (* the model's loop bound was reached *)
Arguments Return {A} a.
Arguments Exit {A} code.
Arguments Panic {A} v.
Arguments Replaced {A}.
Arguments OutOfFuel {A}.

(** A command: from a world to an outcome, the world it leaves and the
    events it produced, oldest first. *)
Definition M (A : Type) : Type := World -> Outcome A * World * list Event.

Definition ret {A} (a : A) : M A := fun w => (Return a, w, []).

Definition bind {A B} (m : M A) (f : A -> M B) : M B :=
  fun w =>
    let '(o, w1, t1) := m w in
    match o with
    | Return a => let '(o2, w2, t2) := f a w1 in (o2, w2, t1 ++ t2)
    | Exit c => (Exit c, w1, t1)
    | Panic v => (Panic v, w1, t1)
    | Replaced => (Replaced, w1, t1)
    | OutOfFuel => (OutOfFuel, w1, t1)
    end.

Declare Scope go_scope.
Delimit Scope go_scope with go.
Notation "x <- m ;; k" := (bind m (fun x => k))
  (at level 100, m at next level, right associativity) : go_scope.
Notation "m ;;; k" := (bind m (fun _ => k))
  (at level 100, right associativity) : go_scope.
Local Open Scope go_scope.

Definition emit (e : Event) : M unit := fun w => (Return tt, w, [e]).
Definition stop {A} (o : Outcome A) : M A := fun w => (o, w, []).
Definition ask {A} (f : World -> A) : M A := fun w => (Return (f w), w, []).

(** Dereferencing a pointer: nil panics. *)
Definition NilDereference : PanicValue :=
  PanicError (errorString "invalid memory address or nil pointer dereference").
Definition deref {A} (p : option A) : M A :=
  match p with Some a => ret a | None => stop (Panic NilDereference) end.

(** [s[i]] on a Go string: out of range panics. *)
Definition index (s : string) (i : nat) : M ascii :=
  match String.get i s with
  | Some c => ret c
  | None => stop (Panic IndexOutOfRange)
  end.

(** A Go [(value, error)] result as the pair the caller destructures: on
    error the value is nil. *)
Definition results {A} (r : error + A) : option A * option error :=
  match r with inl e => (None, Some e) | inr a => (Some a, None) end.

(** Go's [int] is 64 bits wide here; [wrap_int] is its wrap-around. *)
Definition wrap_int (z : Z) : Z := (z + 2 ^ 63) mod 2 ^ 64 - 2 ^ 63.

Module os.
Definition ErrNotExist : error := errorString "file does not exist".
Definition ENOENT : error := Errno 2.

(** [os.IsNotExist(err)]: looks under a [*PathError]. *)
Definition IsNotExist (err : error) : bool :=
  let underlying := match err with PathError _ _ e => e | e => e end in
  error_eqb underlying ENOENT || error_eqb underlying ErrNotExist.

Definition Stat (path : string) : M (option error) :=
  ask (fun w => stat w path).
Definition Chdir (path : string) : M (option error) :=
  fun w => (Return (chdir w path), w, [Chdir path (chdir w path)]).
Definition Getenv (key : string) : M string := ask (fun w => getenv w key).
Definition Exit (code : Z) : M unit := stop (Exit code).
End os.

Module syscall.
(** [syscall.Exec(argv0, argv, envv)]: returns only when it failed. *)
Definition Exec (argv0 : string) (argv : list string) : M (option error) :=
  fun w =>
    match exec w argv0 with
    | Some e => (Return (Some e), w, [Exec argv0 argv (Some e)])
    | None => (Replaced, w, [Exec argv0 argv None])
    end.
End syscall.

Module cli.
Definition ShowCommandHelp (command : string) : M unit :=
  emit (ShowCommandHelp command).
End cli.

Module fmt.
Definition Println (s : string) : M unit := emit (Println s).
End fmt.

(* ===================================================================== *)
(** ** Collaborators declared in other files of the repository *)
(* ===================================================================== *)

Module utils.

(** Modelled from the spec: [utils.Log] is not in [commands.go]; it writes
    one labelled line. *)
Definition Log (prefix : string) (msg : Message) : M unit :=
  emit (Log prefix msg).

(** Modelled from the spec: [utils.DieIf] is not in [commands.go]; a
    non-nil error is reported and the command exits with failure. *)
Definition DieIf (err : option error) : M unit :=
  match err with
  | Some e => Log "error" (ErrorText e) ;;; os.Exit 1
  | None => ret tt
  end.

(** Modelled from the spec: [utils.PanicIf] is not in [commands.go]; a
    non-nil error is propagated as a panic, fatal for the run. *)
Definition PanicIf (err : option error) : M unit :=
  match err with
  | Some e => stop (Panic (PanicError e))
  | None => ret tt
  end.

(** Modelled from the spec: [utils.ErrorIf] is not in [commands.go]; a
    non-nil error is logged and reported to the caller as [true]. *)
Definition ErrorIf (err : option error) : M bool :=
  match err with
  | Some e => Log "error" (ErrorText e) ;;; ret true
  | None => ret false
  end.

(** Modelled from the spec: [utils.Run] is not in [commands.go]; it runs
    an external command. *)
Definition Run (command : string) (args : list string) : M unit :=
  emit (Run command args).

End utils.

(** The [RemoteRepository] interface: the methods [URL()], [IsValid()] and
    [VCS()] that [commands.go] calls, as the values they return. *)
Record RemoteRepository : Type := mkRemoteRepository {
  URL : url.URL;
  IsValid : bool;
  VCS : VCSBackend
}.

(** Modelled from the spec: [LocalRepositoryFromPathParts] is not in
    [commands.go]. The record keeps the parts it is given; the relative path
    is the parts joined by the separator and the full path is the root
    joined with them. *)
Definition LocalRepositoryFromPathParts (pathParts : list string)
  : M LocalRepository :=
  ask (fun w =>
         mkLocalRepository (strings.Join (root w :: pathParts) "/")
                           (strings.Join pathParts "/")
                           pathParts).

(** The non-empty suffixes of a list, longest first. *)
Fixpoint tails {A} (l : list A) : list (list A) :=
  match l with
  | [] => []
  | _ :: l' => l :: tails l'
  end.

(** Modelled from the spec: [Subpaths] is not in [commands.go]. The
    trailing slices of the path parts, each joined by ["/"], from the
    shortest to the longest: for [github.com/alice/foo] these are [foo],
    [alice/foo], [github.com/alice/foo]. *)
Definition Subpaths (repo : LocalRepository) : list string :=
  rev (map (fun parts => strings.Join parts "/") (tails (PathParts repo))).

(** Modelled from the spec: [NonHostPath] is not in [commands.go]. The path
    with the host segment removed. *)
Definition NonHostPath (repo : LocalRepository) : string :=
  strings.Join (tl (PathParts repo)) "/".

(** Modelled from the spec: [Matches] is not in [commands.go]. The query
    equals the joined path parts or one of the trailing subpaths. *)
Definition Matches (repo : LocalRepository) (pathQuery : string) : bool :=
  existsb (String.eqb pathQuery) (Subpaths repo).

(** Modelled from the spec: the [VCS()] method of a local repository is not
    in [commands.go]; the backend is detected from the metadata at the
    repository's path. *)
Definition LocalRepository_VCS (repo : LocalRepository)
  : M (option VCSBackend) :=
  ask (fun w => detectKind w (FullPath repo)).

(** Modelled from the spec: [walkLocalRepositories] is not in
    [commands.go]. It calls [callback] on each discovered repository, in
    discovery order; the variables the callback closes over are threaded as
    [acc]. *)
Definition walkLocalRepositories {S} (callback : LocalRepository -> S -> S)
    (acc : S) : M S :=
  ask (fun w => fold_left (fun s repo => callback repo s) (repositories w) acc).

(** Modelled from the spec: the table of known hosting conventions
    ([NewRemoteRepository] is not in [commands.go]); the host selects the
    backend and an unknown host is an error. *)
Definition known_hosts : list (string * VCSBackend) :=
  [("github.com", GitBackend)].

Definition nonempty (s : string) : bool := negb (String.eqb s "").

(** Modelled from the spec: the validity check ([IsValid] is not in
    [commands.go]); the path has at least two non-empty segments. *)
Definition has_owner_and_project (path : string) : bool :=
  (2 <=? length (filter (fun s => nonempty s = true) (strings.Split path "/")))%nat.

(** Modelled from the spec: a resolver over the table of known hosts
    ([NewRemoteRepository] is not in [commands.go]). *)
Definition hosted_NewRemoteRepository (u : url.URL)
  : option RemoteRepository * option error :=
  match List.find (fun '(h, _) => String.eqb h (url.Host u)) known_hosts with
  | Some (_, vcs) =>
      (Some (mkRemoteRepository u (has_owner_and_project (url.Path u)) vcs), None)
  | None => (None, Some (errorString "unsupported host"))
  end.

(* ===================================================================== *)
(** ** commands.go *)
(* ===================================================================== *)

Section Commands.

(** The backend operations behind [VCS().Clone] and [VCS().Update]
    (another file of the repository): each runs an external tool, which
    changes the world and may fail. *)
Variable run_Clone :
  VCSBackend -> url.URL -> string -> World -> World * option error.
Variable run_Update :
  option VCSBackend -> string -> World -> World * option error.

(** [NewRemoteRepository] (another file of the repository). *)
Variable NewRemoteRepository :
  url.URL -> option RemoteRepository * option error.

Definition VCS_Clone (vcs : VCSBackend) (remote : url.URL) (path : string)
  : M unit :=
  fun w => let '(w', r) := run_Clone vcs remote path w in
           (Return tt, w', [Clone vcs remote path r]).

Definition VCS_Update (vcs : option VCSBackend) (path : string) : M unit :=
  fun w => let '(w', r) := run_Update vcs path w in
           (Return tt, w', [Update vcs path r]).

(** Lines 132-134: the host followed by the pieces of the URL path. *)
Definition pathPartsOf (remoteURL : url.URL) : list string :=
  [url.Host remoteURL] ++ strings.Split (url.Path remoteURL) "/".

(** Lines 130-160. *)
Definition getRemoteRepository (remote : RemoteRepository) (doUpdate : bool)
  : M unit :=
  let remoteURL := URL remote in
  let pathParts := pathPartsOf remoteURL in
  local <- LocalRepositoryFromPathParts pathParts ;;
  let path := FullPath local in
  err <- os.Stat path ;;
  newPath <-
    match err with
    | Some e =>
        let '(newPath, err) :=
          if os.IsNotExist e then (true, None) else (false, Some e) in
        utils.PanicIf err ;;; ret newPath
    | None => ret false
    end ;;
  if newPath : bool then
    utils.Log "clone" (Sprintf "%s -> %s" [ArgURL remoteURL; ArgString path]) ;;;
    VCS_Clone (VCS remote) remoteURL path
  else if doUpdate then
    utils.Log "update" (Text path) ;;;
    vcs <- LocalRepository_VCS local ;;
    VCS_Update vcs path
  else
    utils.Log "exists" (Text path).

(** Lines 111-117 of [DoGet]: a URL without scheme is completed as a
    GitHub reference. *)
Definition DoGet_shorthand (u : url.URL) : M url.URL :=
  if negb (url.IsAbs u) then
    let u := url.with_Scheme "https" u in
    let u := url.with_Host "github.com" u in
    c <- index (url.Path u) 0 ;;
    if negb (Ascii.eqb c "/"%char)
    then ret (url.with_Path ("/" +:+ url.Path u) u)
    else ret u
  else ret u.

(** Lines 123, 290 and 349: the error line of a repository that is not
    valid. *)
Definition NotValid (u : url.URL) : M unit :=
  utils.Log "error" (Sprintf "Not a valid repository: %s" [ArgURL u]).

(** Lines 108-125 of [DoGet]: from the argument to the descriptor. *)
Definition DoGet_resolve (argUrl : string) : M RemoteRepository :=
  let '(u, err) := results (url.Parse argUrl) in
  utils.DieIf err ;;;
  u <- deref u ;;
  u <- DoGet_shorthand u ;;
  let '(remote, err) := NewRemoteRepository u in
  utils.DieIf err ;;;
  remote <- deref remote ;;
  (if negb (IsValid remote) then NotValid u ;;; os.Exit 1 else ret tt) ;;;
  ret remote.

(** Lines 99-128. *)
Definition DoGet (argUrl : string) (doUpdate : bool) : M unit :=
  (if String.eqb argUrl "" then
     cli.ShowCommandHelp "get" ;;; os.Exit 1
   else ret tt) ;;;
  remote <- DoGet_resolve argUrl ;;
  getRemoteRepository remote doUpdate.

(** Lines 168-181 of [DoList]: the filter chosen from the arguments. *)
Definition filterFn (query : string) (exact : bool)
  : LocalRepository -> bool :=
  if String.eqb query "" then fun _ => true
  else if exact then fun repo => Matches repo query
  else fun repo => strings.Contains (NonHostPath repo) query.

(** [subpathCount[p]]: a missing key reads as zero. *)
Definition count_of (subpathCount : gmap string Z) (p : string) : Z :=
  default 0 (subpathCount !! p).

(** Line 198: [subpathCount[p] = subpathCount[p] + 1]. *)
Definition increment (subpathCount : gmap string Z) (p : string)
  : gmap string Z :=
  <[p := wrap_int (count_of subpathCount p + 1)]> subpathCount.

(** Lines 194-200: every subpath of every repository is counted. *)
Definition count_subpaths (repos : list LocalRepository) : gmap string Z :=
  fold_left
    (fun subpathCount repo => fold_left increment (Subpaths repo) subpathCount)
    repos ∅.

(** Lines 203-208: print the first subpath counted once, then [break]. *)
Fixpoint print_first_unique (subpathCount : gmap string Z)
    (subpaths : list string) : M unit :=
  match subpaths with
  | [] => ret tt
  | p :: rest =>
      if count_of subpathCount p =? 1 then fmt.Println p
      else print_first_unique subpathCount rest
  end.

(** A [for _, x := range l] loop. *)
Fixpoint for_each {A} (l : list A) (body : A -> M unit) : M unit :=
  match l with
  | [] => ret tt
  | x :: l' => body x ;;; for_each l' body
  end.

(** Lines 162-219. *)
Definition DoList (query : string)
    (exact printFullPaths printUniquePaths : bool) : M unit :=
  let filterFn := filterFn query exact in
  repos <- walkLocalRepositories
             (fun repo repos =>
                if negb (filterFn repo) then repos else repos ++ [repo])
             [] ;;
  if printUniquePaths then
    let subpathCount := count_subpaths repos in
    for_each repos
      (fun repo => print_first_unique subpathCount (Subpaths repo))
  else
    for_each repos
      (fun repo =>
         if printFullPaths then fmt.Println (FullPath repo)
         else fmt.Println (RelPath repo)).

(** Lines 221-257. *)
Definition DoLook (name : string) : M unit :=
  (if String.eqb name "" then
     cli.ShowCommandHelp "look" ;;; os.Exit 1
   else ret tt) ;;;
  reposFound <- walkLocalRepositories
                  (fun repo reposFound =>
                     if Matches repo name then reposFound ++ [repo]
                     else reposFound)
                  [] ;;
  match reposFound with
  | [] => utils.Log "error" (Text "No repository found")
  | [repo] =>
      shell <- os.Getenv "SHELL" ;;
      let shell := if String.eqb shell "" then "/bin/sh" else shell in
      err <- os.Chdir (FullPath repo) ;;
      utils.PanicIf err ;;;
      syscall.Exec shell [shell] ;;; ret tt
  | _ =>
      utils.Log "error"
        (Text "More than one repositories are found; Try more precise name") ;;;
      for_each reposFound
        (fun repo =>
           utils.Log "error"
             (Text ("- " +:+ strings.Join (PathParts repo) "/")))
  end.

(** Lines 277-295: the body of the loop over one page of starred
    repositories; each [continue] ends the body. *)
Definition DoStarred_item (doUpdate : bool) (repo : Repository) : M unit :=
  raw <- deref (HTMLURL repo) ;;
  let '(u, err) := results (url.Parse raw) in
  match err with
  | Some e =>
      utils.Log "error"
        (Sprintf "Could not parse URL <%s>: %s"
                 [ArgStringPtr (HTMLURL repo); ArgError e])
  | None =>
      u <- deref u ;;
      let '(remote, err) := NewRemoteRepository u in
      failed <- utils.ErrorIf err ;;
      if failed : bool then ret tt
      else
        remote <- deref remote ;;
        if negb (IsValid remote) then NotValid u
        else getRemoteRepository remote doUpdate
  end.

(** Lines 270-300: the loop over the pages, from [page]; [fuel] bounds
    the number of pages fetched. *)
Fixpoint DoStarred_pages (fuel : nat) (user : string) (doUpdate : bool)
    (page : Z) : M unit :=
  match fuel with
  | O => stop OutOfFuel
  | S fuel' =>
      r <- ask (fun w => ListStarred w user page) ;;
      let '(r, err) := results r in
      utils.DieIf err ;;;
      r <- deref r ;;
      let '(repositories, res) := r in
      utils.Log "page" (Sprintf "%d/%d" [ArgInt page; ArgInt (LastPage res)]) ;;;
      for_each repositories (DoStarred_item doUpdate) ;;;
      if page =? LastPage res then ret tt
      else DoStarred_pages fuel' user doUpdate (wrap_int (page + 1))
  end.

(** Lines 259-301. *)
Definition DoStarred (fuel : nat) (user : string) (doUpdate : bool)
  : M unit :=
  (if String.eqb user "" then
     cli.ShowCommandHelp "starred" ;;; os.Exit 1
   else ret tt) ;;;
  DoStarred_pages fuel user doUpdate 1.

(** Lines 336-354: the body of the loop over the Pocket entries. *)
Definition DoPocket_item (doUpdate : bool) (item : PocketItem) : M unit :=
  let '(u, err) := results (url.Parse (ResolvedURL item)) in
  match err with
  | Some e =>
      utils.Log "error"
        (Sprintf "Could not parse URL <%s>: %s"
                 [ArgString (ResolvedURL item); ArgError e])
  | None =>
      u <- deref u ;;
      let '(remote, err) := NewRemoteRepository u in
      failed <- utils.ErrorIf err ;;
      if failed : bool then ret tt
      else
        remote <- deref remote ;;
        if negb (IsValid remote) then NotValid u
        else getRemoteRepository remote doUpdate
  end.

(** Lines 307-330: obtaining an access token when none is configured.
    The wait on the callback channel ([<-ch]) is taken to complete. *)
Definition DoPocket_authorize : M string :=
  svc <- ask pocket ;;
  let '(receiverURL, err) := StartAccessTokenReceiver svc in
  utils.PanicIf err ;;;
  utils.Log "pocket"
    (Text ("Waiting for Pocket authentication callback at " +:+ receiverURL)) ;;;
  utils.Log "pocket" (Text "Obtaining request token") ;;;
  let '(code, err) := ObtainRequestToken svc receiverURL in
  utils.DieIf err ;;;
  utils.Log "open" (Text (GenerateAuthorizationURL svc code receiverURL)) ;;;
  utils.Log "pocket" (Text "Obtaining access token") ;;;
  let '((username, token), err) := ObtainAccessToken svc code in
  utils.DieIf err ;;;
  utils.Log "authorized" (Text username) ;;;
  utils.Run "git" ["config"; "ghq.pocket.token"; token] ;;;
  ret token.

(** Lines 303-355. *)
Definition DoPocket (doUpdate : bool) : M unit :=
  r <- ask (fun w => GitConfig w "ghq.pocket.token") ;;
  let '(accessToken, err) := r in
  utils.PanicIf err ;;;
  accessToken <- (if String.eqb accessToken "" then DoPocket_authorize
                  else ret accessToken) ;;
  utils.Log "pocket" (Text "Retrieving github.com entries") ;;;
  svc <- ask pocket ;;
  let '(items, err) := RetrieveGitHubEntries svc accessToken in
  utils.DieIf err ;;;
  for_each items (DoPocket_item doUpdate).

End Commands.

(* ===================================================================== *)
(** ** Reading a run *)
(* ===================================================================== *)

Definition outcome_of {A} (r : Outcome A * World * list Event) : Outcome A :=
  r.1.1.
Definition world_of {A} (r : Outcome A * World * list Event) : World := r.1.2.
Definition trace_of {A} (r : Outcome A * World * list Event) : list Event :=
  r.2.

Definition is_Clone (e : Event) : bool :=
  match e with Clone _ _ _ _ => true | _ => false end.
(** Every backend call of the trace reported success. *)
Definition tool_ok (e : Event) : bool :=
  match e with
  | Clone _ _ _ (Some _) | Update _ _ (Some _) => false
  | _ => true
  end.

(** A log line whose text contains [needle]. *)
Definition mentions (needle : string) (e : Event) : bool :=
  match e with
  | Log _ (Text s) => strings.Contains s needle
  | _ => false
  end.

(** The path [getRemoteRepository] computes for a descriptor. *)
Definition local_path (w : World) (remote : RemoteRepository) : string :=
  strings.Join (root w :: pathPartsOf (URL remote)) "/".

(** The GitHub completion of a URL, written out. *)
Definition github_completion (u : url.URL) : url.URL :=
  url.mkURL "https" (url.Opaque u) (url.User u) "github.com"
            (if strings.HasPrefix (url.Path u) "/" then url.Path u
             else "/" +:+ url.Path u)
            (url.RawQuery u) (url.Fragment u).

(** Modelled from the spec: a successful [clone] leaves the destination
    path in place (and does not move the configured root). *)
Definition clone_creates
    (run_Clone : VCSBackend -> url.URL -> string -> World -> World * option error)
  : Prop :=
  forall vcs u path w w',
    run_Clone vcs u path w = (w', None) ->
    stat w' path = None /\ root w' = root w.

(** *** Unique listing, as the specification words it *)

(** How often [p] occurs in a list of subpaths. *)
Definition tally (p : string) (l : list string) : nat :=
  length (filter (fun q => q = p) l).

(** How often [p] occurs among all subpaths of all of [repos]. *)
Definition occurrences (p : string) (repos : list LocalRepository) : nat :=
  tally p (flat_map Subpaths repos).

(** [a] is a shorter text than [b]. *)
Definition shorter (a b : string) : Prop :=
  (String.length a < String.length b)%nat.

(** The line of one repository: its first subpath, from the shortest on,
    that occurs exactly once; none when there is no such subpath. *)
Definition unique_line (repos : list LocalRepository) (repo : LocalRepository)
  : option string :=
  List.find (fun p => Nat.eqb (occurrences p repos) 1) (Subpaths repo).

Definition unique_lines (repos : list LocalRepository) : list string :=
  omap (unique_line repos) repos.

(** The repositories [DoList] retains for a query. *)
Definition retained (query : string) (exact : bool) (w : World)
  : list LocalRepository :=
  List.filter (filterFn query exact) (repositories w).

(** *** Batches, as the specification words them *)


(** The traces of the items of a batch, taken one after the other: each
    item runs in the world its predecessor left, and nothing runs after an
    item that did not return. *)
Fixpoint item_traces {A} (body : A -> M unit) (items : list A) (w : World)
  : list (list Event) :=
  match items with
  | [] => []
  | item :: rest =>
      let r := body item w in
      trace_of r ::
      match outcome_of r with
      | Return _ => item_traces body rest (world_of r)
      | _ => []
      end
  end.

(** *** Descriptors, as the specification words them *)

(** Modelled from the spec: a path segment is non-empty and holds no
    ["/"]. *)
Definition segment (s : string) : Prop :=
  s <> "" /\ strings.Contains s "/" = false.

(** Modelled from the spec: a valid descriptor of [host], [owner] and
    [project] is served at [scheme://host/owner/project]. *)
Definition describes (remote : RemoteRepository)
    (host owner project : string) : Prop :=
  url.Host (URL remote) = host
  /\ url.Path (URL remote) = "/" +:+ owner +:+ "/" +:+ project
  /\ segment host /\ segment owner /\ segment project.

(** The local repository [getRemoteRepository] builds at line 135. *)
Definition local_repository (w : World) (remote : RemoteRepository)
  : LocalRepository :=
  let pathParts := pathPartsOf (URL remote) in
  mkLocalRepository (strings.Join (root w :: pathParts) "/")
                    (strings.Join pathParts "/") pathParts.

(** *** Sample worlds *)

Definition no_pocket : PocketService :=
  mkPocketService ("", None) (fun _ => ("", None)) (fun _ _ => "")
                  (fun _ => (("", ""), None)) (fun _ => ([], None)).

Definition ENOENT_at (path : string) : error :=
  PathError "stat" path os.ENOENT.
Definition EACCES_at (path : string) : error :=
  PathError "stat" path (Errno 13).

(** A world with root [/home/u/.ghq] in which only the listed paths exist
    and the listed repositories are discovered. *)
Definition sample_world (existing : list string)
    (repos : list LocalRepository) : World :=
  mkWorld "/home/u/.ghq"
          (fun p => if existsb (String.eqb p) existing then None
                    else Some (ENOENT_at p))
          (fun p => if existsb (String.eqb p) existing then None
                    else Some (PathError "chdir" p os.ENOENT))
          (fun _ => "")
          (fun _ => None)
          (fun _ => None)
          repos
          (fun _ _ => inr ([], mkResponse 0))
          (fun _ => ("token", None))
          no_pocket.

Definition with_stat (f : string -> option error) (w : World) : World :=
  mkWorld (root w) f (chdir w) (getenv w) (exec w) (detectKind w)
          (repositories w) (ListStarred w) (GitConfig w) (pocket w).

Definition with_pocket_entries (items : list PocketItem) (w : World) : World :=
  mkWorld (root w) (stat w) (chdir w) (getenv w) (exec w) (detectKind w)
          (repositories w) (ListStarred w) (GitConfig w)
          (mkPocketService ("", None) (fun _ => ("", None)) (fun _ _ => "")
                           (fun _ => (("", ""), None)) (fun _ => (items, None))).

Definition with_starred (pages : list (list Repository)) (w : World) : World :=
  mkWorld (root w) (stat w) (chdir w) (getenv w) (exec w) (detectKind w)
          (repositories w)
          (fun _ page =>
             inr (nth (Z.to_nat (page - 1)) pages [],
                  mkResponse (Z.of_nat (length pages))))
          (GitConfig w) (pocket w).

(** Modelled from the spec: a backend whose tool always succeeds; a clone
    creates the destination, an update changes nothing that is observed. *)
Definition tool_Clone (vcs : VCSBackend) (u : url.URL) (path : string)
    (w : World) : World * option error :=
  (with_stat (fun p => if String.eqb p path then None else stat w p) w, None).

Definition tool_Update (vcs : option VCSBackend) (path : string) (w : World)
  : World * option error := (w, None).

(** A discovered repository under the sample root. *)
Definition discovered (parts : list string) : LocalRepository :=
  mkLocalRepository (strings.Join ("/home/u/.ghq" :: parts) "/")
                    (strings.Join parts "/") parts.

Definition alice_foo : LocalRepository := discovered ["github.com"; "alice"; "foo"].
Definition bob_foo : LocalRepository := discovered ["github.com"; "bob"; "foo"].

(** Two repositories that share their last path part. *)
Definition two_foos : World := sample_world [] [alice_foo; bob_foo].

(** One page of starred repositories: a broken URL and a good one. *)
Definition one_starred_page : World :=
  with_starred [[mkRepository (Some ":bad");
                 mkRepository (Some "https://github.com/alice/foo")]]
               two_foos.

Definition github_alice_foo : RemoteRepository :=
  mkRemoteRepository
    (url.mkURL "https" "" None "github.com" "/alice/foo" "" "") true GitBackend.

(** *** Further readings of a run *)

Definition is_Update (e : Event) : bool :=
  match e with Update _ _ _ => true | _ => false end.

(** A call of a backend: the only events that touch the file system. *)
Definition backend_call (e : Event) : bool := is_Clone e || is_Update e.

Definition is_Exec (e : Event) : bool :=
  match e with Exec _ _ _ => true | _ => false end.

Definition is_Run (e : Event) : bool :=
  match e with Run _ _ => true | _ => false end.

(** The path a backend call is made on. *)
Definition call_path (e : Event) : option string :=
  match e with
  | Clone _ _ path _ | Update _ path _ => Some path
  | _ => None
  end.

(** *** References without URL punctuation *)



(** The URL [DoGet] hands to the resolver for a parsed URL, when the
    shorthand step returns one. *)
Definition completed (u : url.URL) : option url.URL :=
  if url.IsAbs u then Some u
  else if String.eqb (url.Path u) "" then None
       else Some (github_completion u).

(** An event of the Pocket authorization: the authorization URL shown,
    the user name reported, the token stored. *)
Definition authorization_event (e : Event) : bool :=
  match e with
  | Run _ _ => true
  | Log prefix _ => String.eqb prefix "open" || String.eqb prefix "authorized"
  | _ => false
  end.

(* ===================================================================== *)
(** ** commands.go: the command table and [init] *)
(* ===================================================================== *)

(** [cli.BoolFlag{Name, Usage}]. *)
Record Flag : Type := mkFlag { FlagName : string; FlagUsage : string }.

(** The functions a command can have as its [Action]. *)
Inductive Action : Type :=
  ActionDoGet | ActionDoList | ActionDoLook | ActionDoStarred | ActionDoPocket.

(** [cli.Command]: the fields that [commands.go] sets. *)
Record Command : Type := mkCommand {
  Name : string;
  Usage : string;
  CommandAction : Action;
  Flags : list Flag
}.

(** Lines 24-31. *)
Definition GetCommand : Command :=
  mkCommand "get" "Clone/sync with a remote repository" ActionDoGet
            [mkFlag "update, u" "Update local repository if cloned already"].

(** Lines 33-42. *)
Definition ListCommand : Command :=
  mkCommand "list" "List local repositories" ActionDoList
            [mkFlag "exact, e" "Perform an exact match";
             mkFlag "full-path, p" "Print full paths";
             mkFlag "unique" "Print unique subpaths"].

(** Lines 44-48. *)
Definition LookCommand : Command :=
  mkCommand "look" "Look into a local repository" ActionDoLook [].

(** Lines 50-57. *)
Definition StarredGommand : Command :=
  mkCommand "starred" "Get all starred GitHub repositories" ActionDoStarred
            [mkFlag "update, u" "Update local repository if cloned already"].

(** Lines 59-66. *)
Definition PocketCommand : Command :=
  mkCommand "pocket" "Get all github.com entries in Pocket" ActionDoPocket
            [mkFlag "update, u" "Update local repository if cloned already"].

(** Lines 16-22. *)
Definition Commands : list Command :=
  [GetCommand; ListCommand; LookCommand; StarredGommand; PocketCommand].

(** Lines 68-74. *)
Definition commandArguments : gmap string string :=
  list_to_map
    [("get", "[-u] <repository URL> | <user>/<project>");
     ("list", "[-p] [-e] [<query>]");
     ("look", "<project> | <user>/<project> | <host>/<user>/<project>");
     ("starred", "[-u] <user>");
     ("pocket", "[-u]")].

(** A text built by concatenation, as the list of its pieces; a piece made
    by [fmt.Sprintf] is kept unrendered. *)
Definition Pieces : Type := list Message.

(** Line 80: the clause of one command. *)
Definition clause (commandArguments : gmap string string) (command : Command)
  : Message :=
  let args := default "" (commandArguments !! Name command) in
  Sprintf "{{else if (eq .Name %q)}}%s" [ArgString (Name command); ArgString args].

(** Lines 77-82 of [init], for any command list and argument table. *)
Definition argsTemplate_of (commands : list Command)
    (commandArguments : gmap string string) : Pieces :=
  let argsTemplate := [Text "{{if false}}"] in
  let argsTemplate :=
    fold_left
      (fun argsTemplate command =>
         argsTemplate ++ [clause commandArguments command])
      commands argsTemplate in
  argsTemplate ++ [Text "{{end}}"].

(** Lines 84-96 of [init]: the help template of a command. *)
Definition CommandHelpTemplate : Pieces :=
  [Text "NAME:
   {{.Name}} - {{.Usage}}

USAGE:
   ghq {{.Name}} "]
  ++ argsTemplate_of Commands commandArguments
  ++ [Text "
{{if (len .Description)}}
DESCRIPTION:
   {{.Description}}
{{end}}{{if (len .Flags)}}
OPTIONS:
   {{range .Flags}}{{.}}
   {{end}}
{{end}}"].

(** How the chain of [else if (eq .Name ...)] clauses reads for a command
    name: the text of the first clause made for that name, nothing when
    there is none. *)
Fixpoint usage_of (template : Pieces) (name : string) : string :=
  match template with
  | [] => ""
  | Sprintf _ [ArgString n; ArgString args] :: rest =>
      if String.eqb n name then args else usage_of rest name
  | _ :: rest => usage_of rest name
  end.

(** *** Pages *)

(** The page number of a [page] progress line. *)
Definition page_number (e : Event) : option Z :=
  match e with
  | Log prefix (Sprintf _ (ArgInt page :: _)) =>
      if String.eqb prefix "page" then Some page else None
  | _ => None
  end.

(** The page numbers a trace reports, in order. *)
Definition page_numbers (t : list Event) : list Z := omap page_number t.

(** The backends leave the answers of GitHub as they are. *)
Definition keeps_ListStarred
    (run_Clone : VCSBackend -> url.URL -> string -> World -> World * option error)
    (run_Update : option VCSBackend -> string -> World -> World * option error)
  : Prop :=
  (forall vcs u path w, ListStarred (run_Clone vcs u path w).1 = ListStarred w)
  /\ (forall vcs path w, ListStarred (run_Update vcs path w).1 = ListStarred w).

(** A command ended by itself: it returned or it panicked. *)
Definition ended {A} (o : Outcome A) : Prop :=
  (exists a, o = Return a) \/ (exists v, o = Panic v).

(** The pages [first], [first + 1], ... , [first + count - 1]. *)
Definition pages_from (first : Z) (count : nat) : list Z :=
  map (fun i => first + Z.of_nat i) (seq 0 count).

(** What holds of a run inside a page: GitHub answers as before, no page
    line is logged, and the run returned or panicked. *)
Definition inside_page (w : World) (r : Outcome unit * World * list Event)
  : Prop :=
  ListStarred (world_of r) = ListStarred w
  /\ page_numbers (trace_of r) = []
  /\ ended (outcome_of r).

(** *** More sample worlds *)

(** A world whose stat fails with a permission error everywhere. *)
Definition unreadable_world : World :=
  with_stat (fun p => Some (EACCES_at p)) two_foos.

(** Two pages of starred repositories; the first page holds a broken URL. *)
Definition starred_pages : list (list Repository) :=
  [[mkRepository (Some ":bad");
    mkRepository (Some "https://github.com/alice/foo")];
   [mkRepository (Some "https://github.com/bob/foo")]].

Definition two_starred_pages : World := with_starred starred_pages two_foos.

(** A Pocket service that authorizes [alice] and knows one entry. *)
Definition alice_pocket : PocketService :=
  mkPocketService
    ("http://localhost:4321/", None)
    (fun _ => ("request-code", None))
    (fun code receiverURL =>
       "https://getpocket.com/auth/authorize?request_token=" +:+ code
       +:+ "&redirect_uri=" +:+ receiverURL)
    (fun _ => (("alice", "access-token"), None))
    (fun _ => ([mkPocketItem "https://github.com/alice/foo"], None)).

(** A world without configured Pocket token. *)
Definition unauthorized_world : World :=
  mkWorld (root two_foos) (stat two_foos) (chdir two_foos) (getenv two_foos)
          (exec two_foos) (detectKind two_foos) (repositories two_foos)
          (ListStarred two_foos) (fun _ => ("", None)) alice_pocket.

(* ===================================================================== *)
(** ** Properties *)
(* ===================================================================== *)

(** *** The sequencing of commands *)

Lemma bind_ret_l {A B} (a : A) (f : A -> M B) (w : World) :
  bind (ret a) f w = f a w.
Proof. unfold bind, ret. destruct (f a w) as [[o w'] t]. reflexivity. Qed.

Lemma bind_return {A B} (m : M A) (f : A -> M B) w a w1 t1 :
  m w = (Return a, w1, t1) ->
  bind m f w = (outcome_of (f a w1), world_of (f a w1), t1 ++ trace_of (f a w1)).
Proof.
  intros Hm. unfold bind. rewrite Hm.
  destruct (f a w1) as [[o w2] t2]. reflexivity.
Qed.

Lemma bind_return_quiet {A B} (m : M A) (f : A -> M B) w a w1 :
  m w = (Return a, w1, []) -> bind m f w = f a w1.
Proof.
  intros Hm. unfold bind. rewrite Hm.
  destruct (f a w1) as [[o w2] t2]. reflexivity.
Qed.

Lemma bind_panic {A B} (m : M A) (f : A -> M B) w v w1 t1 :
  m w = (Panic v, w1, t1) -> bind m f w = (Panic v, w1, t1).
Proof. intros Hm. unfold bind. rewrite Hm. reflexivity. Qed.

Lemma run_eta {A} (r : Outcome A * World * list Event) :
  r = (outcome_of r, world_of r, trace_of r).
Proof. destruct r as [[o w] t]. reflexivity. Qed.

Lemma HasPrefix_slash (c : ascii) (s : string) :
  strings.HasPrefix (String c s) "/" = Ascii.eqb c "/".
Proof.
  unfold strings.HasPrefix.
  change (String.prefix "/" (String c s))
    with (if Ascii.ascii_dec "/" c then String.prefix "" s else false).
  destruct (Ascii.ascii_dec "/" c) as [<-|Hne].
  - destruct s; reflexivity.
  - symmetry. apply Ascii.eqb_neq. congruence.
Qed.

Section GetProperties.

Variable run_Clone :
  VCSBackend -> url.URL -> string -> World -> World * option error.
Variable run_Update :
  option VCSBackend -> string -> World -> World * option error.

Local Abbreviation get := (getRemoteRepository run_Clone run_Update).

(** What a run of [getRemoteRepository] is, by the answer of [os.Stat]. *)
Lemma getRemoteRepository_run remote doUpdate w :
  let path := local_path w remote in
  get remote doUpdate w =
  match stat w path with
  | Some e =>
      if os.IsNotExist e then
        (Return tt, (run_Clone (VCS remote) (URL remote) path w).1,
         [Log "clone" (Sprintf "%s -> %s" [ArgURL (URL remote); ArgString path]);
          Clone (VCS remote) (URL remote) path
                (run_Clone (VCS remote) (URL remote) path w).2])
      else (Panic (PanicError e), w, [])
  | None =>
      if doUpdate then
        (Return tt, (run_Update (detectKind w path) path w).1,
         [Log "update" (Text path);
          Update (detectKind w path) path
                 (run_Update (detectKind w path) path w).2])
      else (Return tt, w, [Log "exists" (Text path)])
  end.
Proof.
  unfold get, getRemoteRepository, local_path, LocalRepositoryFromPathParts,
    LocalRepository_VCS, VCS_Clone, VCS_Update, os.Stat, utils.PanicIf,
    utils.Log, emit, ask, ret, stop, bind; cbn [FullPath].
  destruct (stat w _) as [e|] eqn:Hstat.
  - destruct (os.IsNotExist e); [|reflexivity].
    destruct (run_Clone _ _ _ w) as [w' r]. reflexivity.
  - destruct doUpdate; [|reflexivity].
    destruct (run_Update _ _ w) as [w' r]. reflexivity.
Qed.

(** C1. [get(d, updateIfExists)] clones exactly when the computed local
    path does not exist; on an existing path it invokes update when
    [updateIfExists] is set and otherwise only logs [exists], leaving the
    world as it was. Hence [get(d, false)] is idempotent: after a first
    call that returned with its backend call successful, a second call
    neither clones nor fails. *)
Theorem getRemoteRepository_clone_update_exists
    (Hclone : clone_creates run_Clone)
    (remote : RemoteRepository) (doUpdate : bool) (w : World) :
  let path := local_path w remote in
  let run := get remote doUpdate w in
  (existsb is_Clone (trace_of run) = true
   <-> exists e, stat w path = Some e /\ os.IsNotExist e = true)
  /\ (forall e, stat w path = Some e -> os.IsNotExist e = true ->
      run = (Return tt, (run_Clone (VCS remote) (URL remote) path w).1,
             [Log "clone"
                  (Sprintf "%s -> %s" [ArgURL (URL remote); ArgString path]);
              Clone (VCS remote) (URL remote) path
                    (run_Clone (VCS remote) (URL remote) path w).2]))
  /\ (stat w path = None -> doUpdate = true ->
      run = (Return tt, (run_Update (detectKind w path) path w).1,
             [Log "update" (Text path);
              Update (detectKind w path) path
                     (run_Update (detectKind w path) path w).2]))
  /\ (stat w path = None -> doUpdate = false ->
      run = (Return tt, w, [Log "exists" (Text path)]))
  /\ (forall w1 t1,
      get remote false w = (Return tt, w1, t1) ->
      forallb tool_ok t1 = true ->
      get remote false w1 = (Return tt, w1, [Log "exists" (Text path)])).
Proof.
  intros path run.
  pose proof (getRemoteRepository_run remote doUpdate w) as Hrun.
  cbn zeta in Hrun. fold path run in Hrun.
  repeat split.
  - intros Hc. rewrite Hrun in Hc.
    destruct (stat w path) as [e|] eqn:Hstat.
    + destruct (os.IsNotExist e) eqn:Hne; [eauto | discriminate].
    + destruct doUpdate; discriminate.
  - intros (e & Hstat & Hne). rewrite Hrun, Hstat, Hne. reflexivity.
  - intros e Hstat Hne. rewrite Hrun, Hstat, Hne. reflexivity.
  - intros Hstat ->. rewrite Hrun, Hstat. reflexivity.
  - intros Hstat ->. rewrite Hrun, Hstat. reflexivity.
  - intros w1 t1 Hfirst Hok.
    pose proof (getRemoteRepository_run remote false w) as H1.
    cbn zeta in H1. fold path in H1. rewrite Hfirst in H1.
    pose proof (getRemoteRepository_run remote false w1) as H2.
    cbn zeta in H2.
    destruct (stat w path) as [e|] eqn:Hstat.
    + destruct (os.IsNotExist e); [|discriminate].
      destruct (run_Clone (VCS remote) (URL remote) path w) as [w' r] eqn:Hc.
      cbn in H1. injection H1 as -> ->.
      cbn in Hok. destruct r as [err|]; [discriminate|].
      destruct (Hclone _ _ _ _ _ Hc) as [Hthere Hroot].
      assert (Hpath : local_path w' remote = path)
        by (unfold path, local_path; rewrite Hroot; reflexivity).
      rewrite Hpath, Hthere in H2. exact H2.
    + injection H1 as -> ->. fold path in H2. rewrite Hstat in H2. exact H2.
Qed.

(** C8. When [get] checks the local path, a stat error other than "does
    not exist" is fatal: it is raised as a panic that no caller's
    continuation survives, nothing is logged and no backend is called; a
    "does not exist" error is the normal absent-path case and leads to
    the clone. *)
Theorem getRemoteRepository_stat_error
    (remote : RemoteRepository) (doUpdate : bool) (w : World) (e : error)
    (Hstat : stat w (local_path w remote) = Some e) :
  let path := local_path w remote in
  (os.IsNotExist e = false ->
   get remote doUpdate w = (Panic (PanicError e), w, [])
   /\ forall (B : Type) (k : unit -> M B),
        bind (get remote doUpdate) k w = (Panic (PanicError e), w, []))
  /\ (os.IsNotExist e = true ->
      outcome_of (get remote doUpdate w) = Return tt
      /\ trace_of (get remote doUpdate w)
         = [Log "clone"
                (Sprintf "%s -> %s" [ArgURL (URL remote); ArgString path]);
            Clone (VCS remote) (URL remote) path
                  (run_Clone (VCS remote) (URL remote) path w).2]).
Proof.
  intros path.
  pose proof (getRemoteRepository_run remote doUpdate w) as Hrun.
  cbn zeta in Hrun. fold path in Hrun, Hstat. rewrite Hstat in Hrun.
  split; intros Hne; rewrite Hne in Hrun.
  - split; [exact Hrun|]. intros B k. apply bind_panic. exact Hrun.
  - rewrite Hrun. split; reflexivity.
Qed.

End GetProperties.

Section ResolveProperties.

Variable run_Clone :
  VCSBackend -> url.URL -> string -> World -> World * option error.
Variable run_Update :
  option VCSBackend -> string -> World -> World * option error.
Variable NewRemoteRepository :
  url.URL -> option RemoteRepository * option error.

Local Abbreviation resolve := (DoGet_resolve NewRemoteRepository).
Local Abbreviation doGet := (DoGet run_Clone run_Update NewRemoteRepository).

Lemma DoGet_shorthand_run (u : url.URL) (w : World) :
  DoGet_shorthand u w =
  if url.IsAbs u then (Return u, w, [])
  else if String.eqb (url.Path u) "" then (Panic IndexOutOfRange, w, [])
       else (Return (github_completion u), w, []).
Proof.
  unfold DoGet_shorthand, github_completion.
  destruct (url.IsAbs u); [reflexivity|]. cbn [negb].
  destruct u as [sch op usr host path q frag].
  destruct path as [|c path']; [reflexivity|].
  cbn [url.Path url.Opaque url.User url.RawQuery url.Fragment].
  rewrite HasPrefix_slash.
  unfold url.with_Path, url.with_Host, url.with_Scheme, index.
  cbn [url.Path url.Opaque url.User url.RawQuery url.Fragment url.Host
       url.Scheme String.get String.eqb].
  rewrite bind_ret_l.
  destruct (Ascii.eqb c "/"); reflexivity.
Qed.

(** C2 (amended). A reference that parses to a URL without scheme and
    with a non-empty path is completed as a GitHub reference: the scheme
    becomes [https], the host [github.com], and the path is prefixed with
    ["/"] unless it already begins with ["/"], in which case it is kept;
    the other components stay. In particular ["alice/foo"] resolves as
    ["https://github.com/alice/foo"] does. *)
Theorem DoGet_shorthand_github
    (u : url.URL) (w : World)
    (Hrel : url.IsAbs u = false) (Hpath : url.Path u <> "") :
  (exists u',
      DoGet_shorthand u w = (Return u', w, [])
      /\ url.Scheme u' = "https"
      /\ url.Host u' = "github.com"
      /\ url.Path u' = (if strings.HasPrefix (url.Path u) "/"
                        then url.Path u else "/" +:+ url.Path u)
      /\ url.Opaque u' = url.Opaque u /\ url.User u' = url.User u
      /\ url.RawQuery u' = url.RawQuery u
      /\ url.Fragment u' = url.Fragment u)
  /\ resolve "alice/foo" w = resolve "https://github.com/alice/foo" w
  /\ forall doUpdate,
       doGet "alice/foo" doUpdate w
       = doGet "https://github.com/alice/foo" doUpdate w.
Proof.
  split; [|split; [reflexivity | intros; reflexivity]].
  exists (github_completion u).
  rewrite DoGet_shorthand_run, Hrel.
  destruct (String.eqb_spec (url.Path u) "") as [Hempty|_]; [contradiction|].
  repeat split; reflexivity.
Qed.

Lemma DoGet_query_only (doUpdate : bool) (w : World) :
  doGet "?a=b" doUpdate w = (Panic IndexOutOfRange, w, []).
Proof. reflexivity. Qed.

(** C7 (the input on which the code departs from it). The reference
    ["?a=b"] parses, to a URL without scheme whose path is empty and so
    has no owner and project segments; [get] does not reject it as an
    invalid reference with a reported error and a failure exit, it stops
    with an index-out-of-range panic before any error is logged. *)
Theorem DoGet_query_only_not_rejected (doUpdate : bool) (w : World) :
  url.Parse "?a=b" = inr (url.mkURL "" "" None "" "" "a=b" "")
  /\ has_owner_and_project "" = false
  /\ doGet "?a=b" doUpdate w = (Panic IndexOutOfRange, w, [])
  /\ outcome_of (doGet "?a=b" doUpdate w) <> Exit 1
  /\ existsb (fun e => match e with Log _ _ => true | _ => false end)
             (trace_of (doGet "?a=b" doUpdate w)) = false.
Proof.
  rewrite DoGet_query_only. repeat split; try reflexivity. discriminate.
Qed.

(** C10. The non-empty reference ["?a=b"] parses to a URL without scheme
    and with an empty path, and [DoGet] then panics with an
    index-out-of-range error instead of reporting an invalid reference;
    the shorthand step panics exactly on the URLs without scheme whose
    path is empty. *)
Theorem DoGet_empty_path_panics :
  ("?a=b" <> ""
   /\ url.Parse "?a=b" = inr (url.mkURL "" "" None "" "" "a=b" "")
   /\ url.IsAbs (url.mkURL "" "" None "" "" "a=b" "") = false)
  /\ (forall doUpdate w,
         doGet "?a=b" doUpdate w = (Panic IndexOutOfRange, w, []))
  /\ (forall u w,
         outcome_of (DoGet_shorthand u w) = Panic IndexOutOfRange
         <-> url.IsAbs u = false /\ url.Path u = "").
Proof.
  split; [repeat split; [discriminate | reflexivity..] |].
  split; [intros; apply DoGet_query_only|].
  intros u w. rewrite DoGet_shorthand_run.
  destruct (url.IsAbs u).
  - split; [discriminate | intros [? _]; discriminate].
  - destruct (String.eqb_spec (url.Path u) "") as [Hempty|Hne].
    + split; [auto | reflexivity].
    + split; [discriminate | intros [_ ?]; contradiction].
Qed.

(** An unparseable argument makes [get] report the error and exit with
    failure. *)
Lemma DoGet_unparseable (argUrl : string) (doUpdate : bool) (w : World) e :
  argUrl <> "" -> url.Parse argUrl = inl e ->
  doGet argUrl doUpdate w = (Exit 1, w, [Log "error" (ErrorText e)]).
Proof.
  intros Hne Hparse. unfold doGet, DoGet, DoGet_resolve.
  destruct (String.eqb_spec argUrl "") as [?|_]; [contradiction|].
  rewrite bind_ret_l, Hparse. reflexivity.
Qed.

End ResolveProperties.

(** *** Splitting a URL path *)

Lemma Contains_slash_cons (c : ascii) (s : string) :
  strings.Contains (String c s) "/" = Ascii.eqb c "/" || strings.Contains s "/".
Proof.
  change (strings.Contains (String c s) "/")
    with (strings.HasPrefix (String c s) "/" || strings.Contains s "/").
  rewrite HasPrefix_slash. reflexivity.
Qed.

Lemma Split_segment (s : string) :
  strings.Contains s "/" = false -> strings.Split s "/" = [s].
Proof.
  induction s as [|c s IH]; [reflexivity|].
  rewrite Contains_slash_cons. intros [Hc Hs]%orb_false_iff.
  cbn [strings.Split]. rewrite Hc, (IH Hs). reflexivity.
Qed.

Lemma Split_append (s t : string) :
  strings.Contains s "/" = false ->
  strings.Split (s +:+ "/" +:+ t) "/" = s :: strings.Split t "/".
Proof.
  induction s as [|c s IH]; [reflexivity|].
  rewrite Contains_slash_cons. intros [Hc Hs]%orb_false_iff.
  change (String c s +:+ "/" +:+ t) with (String c (s +:+ "/" +:+ t)).
  cbn [strings.Split]. rewrite Hc, (IH Hs). reflexivity.
Qed.

(** C5 (what the code builds instead). For every valid descriptor the
    parts handed to [LocalRepositoryFromPathParts] are the host, an empty
    string and then owner and project: splitting the URL path, which starts
    with ["/"], yields an empty first piece. The parts are four and never
    [[host; owner; project]]; the full path is the root joined with them. *)
Theorem pathParts_leading_empty_segment
    (w : World) (remote : RemoteRepository) (host owner project : string)
    (Hd : describes remote host owner project) :
  let local := local_repository w remote in
  LocalRepositoryFromPathParts (pathPartsOf (URL remote)) w
  = (Return local, w, [])
  /\ PathParts local = [host; ""; owner; project]
  /\ PathParts local <> [host; owner; project]
  /\ In "" (PathParts local)
  /\ FullPath local = strings.Join (root w :: PathParts local) "/".
Proof.
  destruct Hd as (Hhost & Hpath & _ & [_ Howner] & [_ Hproject]).
  assert (Hparts : pathPartsOf (URL remote) = [host; ""; owner; project]).
  { unfold pathPartsOf. rewrite Hhost, Hpath.
    change ("/" +:+ owner +:+ "/" +:+ project)
      with ("" +:+ "/" +:+ (owner +:+ "/" +:+ project)).
    rewrite (Split_append "" (owner +:+ "/" +:+ project)) by reflexivity.
    rewrite (Split_append owner project Howner), (Split_segment _ Hproject).
    reflexivity. }
  cbn zeta. unfold local_repository. cbn [PathParts FullPath].
  rewrite Hparts. split; [reflexivity|]. split; [reflexivity|].
  split; [discriminate|]. split; [right; left|]; reflexivity.
Qed.

(** *** Loops *)

Lemma bind_assoc {A B C} (m : M A) (f : A -> M B) (g : B -> M C) (w : World) :
  bind (bind m f) g w = bind m (fun a => bind (f a) g) w.
Proof.
  unfold bind. destruct (m w) as [[[a| | | |] w1] t1]; try reflexivity.
  destruct (f a w1) as [[[b| | | |] w2] t2]; try reflexivity.
  destruct (g b w2) as [[o3 w3] t3]. rewrite app_assoc. reflexivity.
Qed.

Lemma bind_ext {A B} (m : M A) (f g : A -> M B) (w : World) :
  (forall a w', f a w' = g a w') -> bind m f w = bind m g w.
Proof.
  intros Hfg. unfold bind. destruct (m w) as [[[a| | | |] w1] t1]; try reflexivity.
  rewrite Hfg. reflexivity.
Qed.

Lemma for_each_app {A} (l1 l2 : list A) (body : A -> M unit) (w : World) :
  for_each (l1 ++ l2) body w
  = bind (for_each l1 body) (fun _ => for_each l2 body) w.
Proof.
  revert w. induction l1 as [|x l1 IH]; intros w.
  - cbn [app for_each]. rewrite bind_ret_l. reflexivity.
  - cbn [app for_each]. rewrite bind_assoc. apply bind_ext. intros _ w'. apply IH.
Qed.

Lemma for_each_quiet {A} (l : list A) (body : A -> M unit)
    (f : A -> list Event) (w : World) :
  (forall x, body x w = (Return tt, w, f x)) ->
  for_each l body w = (Return tt, w, concat (map f l)).
Proof.
  intros Hbody. induction l as [|x l IH]; [reflexivity|].
  cbn [for_each map concat]. unfold bind. rewrite Hbody, IH. reflexivity.
Qed.

(** *** The walk of [DoList] and [DoLook] *)

Lemma fold_collect (keep : LocalRepository -> bool)
    (l acc : list LocalRepository) :
  fold_left (fun s repo => if keep repo then s ++ [repo] else s) l acc
  = acc ++ List.filter keep l.
Proof.
  revert acc. induction l as [|repo l IH]; intros acc.
  - cbn. rewrite app_nil_r. reflexivity.
  - cbn [fold_left List.filter]. rewrite IH.
    destruct (keep repo); [|reflexivity].
    rewrite <- app_assoc. reflexivity.
Qed.

Lemma walk_collect (keep : LocalRepository -> bool) (w : World) :
  walkLocalRepositories
    (fun repo repos => if keep repo then repos ++ [repo] else repos) [] w
  = (Return (List.filter keep (repositories w)), w, []).
Proof.
  unfold walkLocalRepositories, ask. rewrite fold_collect. reflexivity.
Qed.

(** *** Counting subpaths *)

Lemma wrap_int_succ (z : Z) : wrap_int (wrap_int z + 1) = wrap_int (z + 1).
Proof.
  unfold wrap_int. f_equal.
  replace ((z + 2 ^ 63) mod 2 ^ 64 - 2 ^ 63 + 1 + 2 ^ 63)
    with ((z + 2 ^ 63) mod 2 ^ 64 + 1) by lia.
  rewrite Z.add_mod_idemp_l by lia. f_equal. lia.
Qed.

Lemma wrap_int_small (z : Z) : 0 <= z < 2 ^ 63 -> wrap_int z = z.
Proof. intros Hz. unfold wrap_int. rewrite Z.mod_small; lia. Qed.

Lemma count_subpaths_flat (repos : list LocalRepository) :
  count_subpaths repos = fold_left increment (flat_map Subpaths repos) ∅.
Proof.
  unfold count_subpaths. generalize (∅ : gmap string Z).
  induction repos as [|repo repos IH]; intros m; [reflexivity|].
  cbn [fold_left flat_map]. rewrite fold_left_app. apply IH.
Qed.

Lemma tally_cons p q l :
  tally p (q :: l) = ((if decide (q = p) then 1 else 0) + tally p l)%nat.
Proof.
  unfold tally. rewrite filter_cons. destruct (decide (q = p)); reflexivity.
Qed.

Lemma count_of_increment m p q :
  count_of (increment m q) p
  = if decide (q = p) then wrap_int (count_of m p + 1) else count_of m p.
Proof.
  unfold increment, count_of. destruct (decide (q = p)) as [->|Hne].
  - rewrite lookup_insert_eq. reflexivity.
  - rewrite lookup_insert_ne by exact Hne. reflexivity.
Qed.

Lemma count_of_fold (l : list string) (m : gmap string Z) (p : string) (n : nat) :
  count_of m p = wrap_int (Z.of_nat n) ->
  count_of (fold_left increment l m) p = wrap_int (Z.of_nat (n + tally p l)).
Proof.
  revert m n. induction l as [|q l IH]; intros m n Hm.
  - cbn. rewrite Nat.add_0_r. exact Hm.
  - cbn [fold_left]. rewrite tally_cons.
    rewrite (IH (increment m q) (n + if decide (q = p) then 1 else 0)%nat).
    + f_equal. lia.
    + rewrite count_of_increment. destruct (decide (q = p)).
      * rewrite Hm, wrap_int_succ. f_equal. lia.
      * rewrite Nat.add_0_r. exact Hm.
Qed.

Lemma count_of_count_subpaths (repos : list LocalRepository) (p : string) :
  count_of (count_subpaths repos) p = wrap_int (Z.of_nat (occurrences p repos)).
Proof.
  rewrite count_subpaths_flat.
  apply (count_of_fold _ ∅ p 0). reflexivity.
Qed.

Lemma fold_filter (keep : LocalRepository -> bool)
    (l acc : list LocalRepository) :
  fold_left (fun s repo => if negb (keep repo) then s else s ++ [repo]) l acc
  = acc ++ List.filter keep l.
Proof.
  revert acc. induction l as [|repo l IH]; intros acc.
  - cbn. rewrite app_nil_r. reflexivity.
  - cbn [fold_left List.filter]. rewrite IH.
    destruct (keep repo); [|reflexivity].
    cbn [negb]. rewrite <- app_assoc. reflexivity.
Qed.

Lemma walk_filter (keep : LocalRepository -> bool) (w : World) :
  walkLocalRepositories
    (fun repo repos => if negb (keep repo) then repos else repos ++ [repo]) [] w
  = (Return (List.filter keep (repositories w)), w, []).
Proof.
  unfold walkLocalRepositories, ask. rewrite fold_filter. reflexivity.
Qed.

Lemma print_first_unique_run (subpathCount : gmap string Z)
    (subpaths : list string) (w : World) :
  print_first_unique subpathCount subpaths w
  = (Return tt, w,
     match List.find (fun p => count_of subpathCount p =? 1) subpaths with
     | Some p => [Println p]
     | None => []
     end).
Proof.
  induction subpaths as [|p rest IH]; [reflexivity|].
  cbn [print_first_unique List.find].
  destruct (count_of subpathCount p =? 1); [reflexivity | exact IH].
Qed.

Lemma DoList_unique_run (query : string) (exact printFullPaths : bool) (w : World) :
  let listed := retained query exact w in
  DoList query exact printFullPaths true w
  = (Return tt, w,
     concat (map (fun repo =>
                    match List.find (fun p => count_of (count_subpaths listed) p =? 1)
                                    (Subpaths repo) with
                    | Some p => [Println p]
                    | None => []
                    end) listed)).
Proof.
  intros listed. unfold DoList.
  rewrite (bind_return _ _ _ _ _ _ (walk_filter (filterFn query exact) w)).
  fold (retained query exact w). fold listed.
  rewrite (for_each_quiet listed _ _ w (fun repo => print_first_unique_run _ _ w)).
  reflexivity.
Qed.

Lemma find_ext_in {A} (f g : A -> bool) (l : list A) :
  (forall x, In x l -> f x = g x) -> List.find f l = List.find g l.
Proof.
  induction l as [|x l IH]; intros Hfg; [reflexivity|].
  cbn [List.find]. rewrite (Hfg x) by (left; reflexivity).
  destruct (g x); [reflexivity|]. apply IH. intros y Hy. apply Hfg. right. exact Hy.
Qed.

Lemma tally_le_length p l : (tally p l <= length l)%nat.
Proof. unfold tally. apply length_filter. Qed.

Lemma count_is_occurrences (repos : list LocalRepository) (p : string) :
  Z.of_nat (length (flat_map Subpaths repos)) < 2 ^ 63 ->
  count_of (count_subpaths repos) p = Z.of_nat (occurrences p repos).
Proof.
  intros Hfit. rewrite count_of_count_subpaths. apply wrap_int_small.
  pose proof (tally_le_length p (flat_map Subpaths repos)) as Hle.
  unfold occurrences. fold (tally p (flat_map Subpaths repos)). lia.
Qed.

Lemma concat_map_option {A B} (f : A -> option B) (g : B -> Event) (l : list A) :
  concat (map (fun a => match f a with Some b => [g b] | None => [] end) l)
  = map g (omap f l).
Proof.
  induction l as [|a l IH]; [reflexivity|].
  cbn [map concat omap list_omap]. rewrite IH. destruct (f a); reflexivity.
Qed.

Lemma DoList_unique_lines_run (query : string) (exact printFullPaths : bool)
    (w : World) :
  Z.of_nat (length (flat_map Subpaths (retained query exact w))) < 2 ^ 63 ->
  DoList query exact printFullPaths true w
  = (Return tt, w, map Println (unique_lines (retained query exact w))).
Proof.
  intros Hfit. rewrite DoList_unique_run. cbn zeta.
  unfold unique_lines. rewrite <- concat_map_option. do 2 f_equal.
  apply map_ext. intros repo. unfold unique_line.
  rewrite (find_ext_in _ (fun p => Nat.eqb (occurrences p (retained query exact w)) 1)).
  - reflexivity.
  - intros p _. rewrite (count_is_occurrences _ p Hfit).
    destruct (Nat.eqb_spec (occurrences p (retained query exact w)) 1) as [->|Hne].
    + reflexivity.
    + apply Z.eqb_neq. lia.
Qed.

(** *** The order of the subpaths *)

Lemma Join_cons (x : string) (l : list string) :
  strings.Join (x :: l) "/"
  = match l with [] => x | _ :: _ => x +:+ "/" +:+ strings.Join l "/" end.
Proof. reflexivity. Qed.

Lemma length_append (s t : string) :
  String.length (s +:+ t) = (String.length s + String.length t)%nat.
Proof.
  induction s as [|c s IH]; [reflexivity|].
  change (String c s +:+ t) with (String c (s +:+ t)).
  cbn [String.length]. rewrite IH. reflexivity.
Qed.

Lemma Join_cons_longer (x y : string) (l : list string) :
  (String.length (strings.Join (y :: l) "/")
   < String.length (strings.Join (x :: y :: l) "/"))%nat.
Proof.
  rewrite (Join_cons x). rewrite !length_append. cbn [String.length]. lia.
Qed.

Lemma tails_Join_le (l t : list string) :
  In t (tails l) ->
  (String.length (strings.Join t "/") <= String.length (strings.Join l "/"))%nat.
Proof.
  induction l as [|x l IH]; [intros []|].
  cbn [tails]. intros [<-|Hin]; [lia|].
  specialize (IH Hin). destruct l as [|y l]; [destruct Hin|].
  pose proof (Join_cons_longer x y l). lia.
Qed.

Lemma Subpaths_sorted (repo : LocalRepository) :
  StronglySorted shorter (Subpaths repo).
Proof.
  unfold Subpaths. induction (PathParts repo) as [|x l IH]; [constructor|].
  cbn [tails map rev]. apply StronglySorted_app_2.
  - intros a b Ha Hb. apply list_elem_of_In in Ha, Hb.
    destruct Hb as [<-|[]]. apply in_rev, in_map_iff in Ha.
    destruct Ha as (t & <- & Ht). pose proof (tails_Join_le l t Ht) as Hle.
    destruct l as [|y l]; [destruct Ht|].
    pose proof (Join_cons_longer x y l). unfold shorter. lia.
  - exact IH.
  - repeat constructor.
Qed.

Lemma find_first {A} (f : A -> bool) (l : list A) (p : A) :
  List.find f l = Some p ->
  exists before after,
    l = before ++ p :: after /\ f p = true
    /\ forall q, In q before -> f q = false.
Proof.
  induction l as [|x l IH]; [discriminate|].
  cbn [List.find]. destruct (f x) eqn:Hx.
  - intros [= ->]. exists [], l. repeat split; [exact Hx | intros q []].
  - intros Hfind. destruct (IH Hfind) as (before & after & -> & Hp & Hbefore).
    exists (x :: before), after. repeat split; [exact Hp|].
    intros q [<-|Hq]; [exact Hx | exact (Hbefore q Hq)].
Qed.

Lemma unique_line_first (repos : list LocalRepository) (repo : LocalRepository)
    (p : string) :
  unique_line repos repo = Some p ->
  occurrences p repos = 1%nat
  /\ (exists before after,
         Subpaths repo = before ++ p :: after
         /\ forall q, In q before -> occurrences q repos <> 1%nat)
  /\ (forall q, In q (Subpaths repo) -> occurrences q repos = 1%nat ->
      (String.length p <= String.length q)%nat).
Proof.
  intros Hfind. destruct (find_first _ _ _ Hfind) as (before & after & Hsplit & Hp & Hbefore).
  apply Nat.eqb_eq in Hp. split; [exact Hp|]. split.
  - exists before, after. split; [exact Hsplit|].
    intros q Hq. apply Nat.eqb_neq. exact (Hbefore q Hq).
  - intros q Hq Hone. rewrite Hsplit in Hq.
    apply in_app_or in Hq. destruct Hq as [Hq|[<-|Hq]].
    + apply Hbefore, Nat.eqb_neq in Hq. contradiction.
    + lia.
    + pose proof (Subpaths_sorted repo) as Hsorted. rewrite Hsplit in Hsorted.
      apply StronglySorted_app_1_r, StronglySorted_cons in Hsorted.
      destruct Hsorted as [Hall _]. rewrite Forall_forall in Hall.
      apply list_elem_of_In, Hall in Hq. unfold shorter in Hq. lia.
Qed.

Lemma unique_line_none (repos : list LocalRepository) (repo : LocalRepository) :
  unique_line repos repo = None
  <-> forall q, In q (Subpaths repo) -> occurrences q repos <> 1%nat.
Proof.
  unfold unique_line. split.
  - intros Hnone q Hq. apply Nat.eqb_neq. exact (find_none _ _ Hnone q Hq).
  - intros Hall. destruct (List.find _ _) as [p|] eqn:Hfind; [|reflexivity].
    apply find_some in Hfind. destruct Hfind as [Hin Hp].
    apply Nat.eqb_eq in Hp. destruct (Hall p Hin Hp).
Qed.

Lemma tally_app (p : string) (l1 l2 : list string) :
  tally p (l1 ++ l2) = (tally p l1 + tally p l2)%nat.
Proof. unfold tally. rewrite filter_app, length_app. reflexivity. Qed.

Lemma occurrences_filter_le (keep : LocalRepository -> bool) (p : string)
    (repos : list LocalRepository) :
  (occurrences p (List.filter keep repos) <= occurrences p repos)%nat.
Proof.
  unfold occurrences. induction repos as [|repo repos IH]; [reflexivity|].
  cbn [List.filter flat_map]. destruct (keep repo).
  - cbn [flat_map]. rewrite !tally_app. lia.
  - rewrite tally_app. lia.
Qed.

(** *** Unique listing *)

(** C3. In unique listing mode each listed repository contributes the
    first of its subpaths, read from the shortest on, that occurs exactly
    once among all subpaths of all listed repositories (it is then the
    shortest such subpath), and no line when none of its subpaths occurs
    exactly once. The number of subpaths is taken to fit Go's [int]. *)
Theorem DoList_unique_selection
    (query : string) (exact printFullPaths : bool) (w : World)
    (Hfit : Z.of_nat (length (flat_map Subpaths (retained query exact w)))
            < 2 ^ 63) :
  let listed := retained query exact w in
  DoList query exact printFullPaths true w
  = (Return tt, w, map Println (unique_lines listed))
  /\ (forall repo p,
        unique_line listed repo = Some p ->
        occurrences p listed = 1%nat
        /\ (exists before after,
              Subpaths repo = before ++ p :: after
              /\ forall q, In q before -> occurrences q listed <> 1%nat)
        /\ (forall q, In q (Subpaths repo) -> occurrences q listed = 1%nat ->
            (String.length p <= String.length q)%nat))
  /\ (forall repo,
        unique_line listed repo = None
        <-> forall q, In q (Subpaths repo) -> occurrences q listed <> 1%nat).
Proof.
  intros listed. split; [|split].
  - apply DoList_unique_lines_run. exact Hfit.
  - intros repo p. apply unique_line_first.
  - intros repo. apply unique_line_none.
Qed.

(** C4 (amended). In unique listing mode the counts that select the
    printed subpaths are taken over the repositories the filter retains:
    the count of a subpath is the number of its occurrences among the
    subpaths of the retained repositories (as a Go [int]). That number is at
    most the one over everything the walker emits, and the two sets are the
    same when no query is given. *)
Theorem DoList_counts_over_retained
    (query : string) (exact printFullPaths : bool) (w : World) :
  let listed := retained query exact w in
  DoList query exact printFullPaths true w
  = for_each listed
      (fun repo => print_first_unique (count_subpaths listed) (Subpaths repo)) w
  /\ (forall p,
        count_of (count_subpaths listed) p
        = wrap_int (Z.of_nat (occurrences p listed)))
  /\ (forall p,
        (occurrences p listed <= occurrences p (repositories w))%nat)
  /\ (query = "" -> listed = repositories w).
Proof.
  intros listed. split; [|split; [|split]].
  - unfold DoList.
    rewrite (bind_return_quiet _ _ _ _ _ (walk_filter (filterFn query exact) w)).
    reflexivity.
  - intros p. apply count_of_count_subpaths.
  - intros p. apply occurrences_filter_le.
  - intros ->. unfold listed, retained, filterFn. cbn [String.eqb].
    induction (repositories w) as [|repo l IH]; [reflexivity|].
    cbn [List.filter]. rewrite IH. reflexivity.
Qed.

(** *** Looking into a repository *)

Lemma walk_collect_Matches (name : string) (w : World) :
  walkLocalRepositories
    (fun repo reposFound =>
       if Matches repo name then reposFound ++ [repo] else reposFound) [] w
  = (Return (List.filter (fun repo => Matches repo name) (repositories w)), w, []).
Proof. apply (walk_collect (fun repo => Matches repo name)). Qed.

Lemma DoLook_found (name : string) (w : World) :
  name <> "" ->
  DoLook name w
  = match List.filter (fun repo => Matches repo name) (repositories w) with
    | [] => utils.Log "error" (Text "No repository found") w
    | [repo] =>
        (shell <- os.Getenv "SHELL" ;;
         let shell := if String.eqb shell "" then "/bin/sh" else shell in
         err <- os.Chdir (FullPath repo) ;;
         utils.PanicIf err ;;;
         syscall.Exec shell [shell] ;;; ret tt) w
    | found =>
        (utils.Log "error"
           (Text "More than one repositories are found; Try more precise name") ;;;
         for_each found
           (fun repo =>
              utils.Log "error"
                (Text ("- " +:+ strings.Join (PathParts repo) "/")))) w
    end.
Proof.
  intros Hname. unfold DoLook.
  destruct (String.eqb_spec name "") as [?|_]; [contradiction|].
  rewrite bind_ret_l.
  rewrite (bind_return_quiet _ _ _ _ _ (walk_collect_Matches name w)).
  destruct (List.filter _ _) as [|repo [|repo' found]]; reflexivity.
Qed.

(** C6 (amended). A look query with no match is reported as an error and
    the command returns; with exactly one match the command changes into
    that repository's full path and executes the shell there (an error of
    the directory change is raised as a panic); with more than one match
    the ambiguity is reported, the command returns, and every candidate is
    listed by its path parts joined with ["/"], which is its path below the
    root and not its full path. *)
Theorem DoLook_by_match_count (name : string) (w : World) (Hname : name <> "") :
  let found := List.filter (fun repo => Matches repo name) (repositories w) in
  let shell :=
    if String.eqb (getenv w "SHELL") "" then "/bin/sh" else getenv w "SHELL" in
  (found = [] ->
   DoLook name w = (Return tt, w, [Log "error" (Text "No repository found")]))
  /\ (forall repo, found = [repo] ->
      DoLook name w
      = match chdir w (FullPath repo) with
        | Some e =>
            (Panic (PanicError e), w, [Chdir (FullPath repo) (Some e)])
        | None =>
            (match exec w shell with Some _ => Return tt | None => Replaced end,
             w,
             [Chdir (FullPath repo) None; Exec shell [shell] (exec w shell)])
        end)
  /\ ((2 <= length found)%nat ->
      DoLook name w
      = (Return tt, w,
         Log "error"
             (Text "More than one repositories are found; Try more precise name")
         :: map (fun repo =>
                   Log "error" (Text ("- " +:+ strings.Join (PathParts repo) "/")))
                found)).
Proof.
  intros found shell. pose proof (DoLook_found name w Hname) as Hrun.
  fold found in Hrun. split; [|split].
  - intros Hnone. rewrite Hrun, Hnone. reflexivity.
  - intros repo Hone. rewrite Hrun, Hone.
    unfold bind, os.Getenv, os.Chdir, ask, utils.PanicIf, syscall.Exec, stop, ret.
    fold shell. destruct (chdir w (FullPath repo)) as [e|]; [reflexivity|].
    destruct (exec w shell) as [e|]; reflexivity.
  - intros Hmany. rewrite Hrun.
    destruct found as [|repo [|repo' rest]]; cbn [length] in Hmany; [lia..|].
    unfold bind at 1. cbn [utils.Log emit].
    rewrite (for_each_quiet _ _
               (fun repo =>
                  [Log "error" (Text ("- " +:+ strings.Join (PathParts repo) "/"))])
               w (fun _ => eq_refl)).
    cbn [app]. do 2 f_equal.
    generalize (repo :: repo' :: rest). intros l.
    induction l as [|x l IH]; [reflexivity|]. cbn. rewrite IH. reflexivity.
Qed.

(** *** Batches *)

Lemma for_each_traces {A} (body : A -> M unit) (items : list A) (w : World) :
  trace_of (for_each items body w) = concat (item_traces body items w).
Proof.
  revert w. induction items as [|item rest IH]; intros w; [reflexivity|].
  cbn [for_each item_traces concat]. unfold bind.
  destruct (body item w) as [[[[]| | | |] w1] t1]; cbn;
    rewrite ?app_nil_r; try reflexivity.
  specialize (IH w1). destruct (for_each rest body w1) as [[o2 w2] t2].
  cbn in IH |- *. rewrite IH. reflexivity.
Qed.


Section BatchProperties.

Variable run_Clone :
  VCSBackend -> url.URL -> string -> World -> World * option error.
Variable run_Update :
  option VCSBackend -> string -> World -> World * option error.
Variable NewRemoteRepository :
  url.URL -> option RemoteRepository * option error.

Local Abbreviation pocket_item :=
  (DoPocket_item run_Clone run_Update NewRemoteRepository).
Local Abbreviation starred_item :=
  (DoStarred_item run_Clone run_Update NewRemoteRepository).



(** The loop of [DoPocket] once a token is configured and the entries are
    retrieved. *)
Lemma DoPocket_entries (doUpdate : bool) (w : World) (token : string)
    (items : list PocketItem) :
  GitConfig w "ghq.pocket.token" = (token, None) -> token <> "" ->
  RetrieveGitHubEntries (pocket w) token = (items, None) ->
  DoPocket run_Clone run_Update NewRemoteRepository doUpdate w
  = (outcome_of (for_each items (pocket_item doUpdate) w),
     world_of (for_each items (pocket_item doUpdate) w),
     Log "pocket" (Text "Retrieving github.com entries")
     :: trace_of (for_each items (pocket_item doUpdate) w)).
Proof.
  intros Hconfig Htoken Hentries. unfold DoPocket.
  unfold bind at 1. unfold ask at 1. rewrite Hconfig. cbn [utils.PanicIf].
  rewrite bind_ret_l.
  destruct (String.eqb_spec token "") as [?|_]; [contradiction|].
  rewrite bind_ret_l. unfold bind at 1. cbn [utils.Log emit].
  unfold bind at 1. unfold ask at 1. rewrite Hentries. cbn [utils.DieIf].
  rewrite bind_ret_l.
  destruct (for_each items _ w) as [[o w'] t]. reflexivity.
Qed.


End BatchProperties.

(* ===================================================================== *)
(** ** The properties at concrete inputs *)
(* ===================================================================== *)

Lemma tool_Clone_creates : clone_creates tool_Clone.
Proof.
  intros vcs u path w w' [= <-]. cbn. rewrite String.eqb_refl.
  split; reflexivity.
Qed.

(** [get alice/foo] twice in an empty root: the first call clones, the
    second finds the path and only logs. *)
Lemma getRemoteRepository_twice :
  trace_of (getRemoteRepository tool_Clone tool_Update github_alice_foo false
              (sample_world [] []))
  = [Log "clone"
         (Sprintf "%s -> %s"
            [ArgURL (URL github_alice_foo);
             ArgString (local_path (sample_world [] []) github_alice_foo)]);
     Clone GitBackend (URL github_alice_foo)
           (local_path (sample_world [] []) github_alice_foo) None]
  /\ trace_of
       (getRemoteRepository tool_Clone tool_Update github_alice_foo false
          (world_of (getRemoteRepository tool_Clone tool_Update
                       github_alice_foo false (sample_world [] []))))
     = [Log "exists"
            (Text (local_path (sample_world [] []) github_alice_foo))].
Proof.
  split; [reflexivity|].
  destruct (getRemoteRepository_clone_update_exists
              tool_Clone tool_Update tool_Clone_creates
              github_alice_foo false (sample_world [] []))
    as (_ & _ & _ & _ & Hagain).
  rewrite (Hagain _ _ (run_eta _) eq_refl). reflexivity.
Defined.

(** A root that cannot be read: [get] panics with the stat error. *)
Lemma getRemoteRepository_unreadable :
  getRemoteRepository tool_Clone tool_Update github_alice_foo false
    (with_stat (fun p => Some (EACCES_at p)) (sample_world [] []))
  = (Panic (PanicError
              (EACCES_at (local_path (sample_world [] []) github_alice_foo))),
     with_stat (fun p => Some (EACCES_at p)) (sample_world [] []), []).
Proof.
  exact (proj1 (proj1 (getRemoteRepository_stat_error
                         tool_Clone tool_Update github_alice_foo false
                         (with_stat (fun p => Some (EACCES_at p))
                                    (sample_world [] []))
                         _ eq_refl) eq_refl)).
Defined.

(** The shorthand [alice/foo] is completed to
    [https://github.com/alice/foo]. *)
Lemma DoGet_shorthand_alice_foo :
  exists u',
    DoGet_shorthand (url.mkURL "" "" None "" "alice/foo" "" "") two_foos
    = (Return u', two_foos, [])
    /\ url.Scheme u' = "https" /\ url.Host u' = "github.com"
    /\ url.Path u' = "/alice/foo".
Proof.
  destruct (DoGet_shorthand_github tool_Clone tool_Update
              hosted_NewRemoteRepository
              (url.mkURL "" "" None "" "alice/foo" "" "") two_foos
              eq_refl ltac:(discriminate))
    as ((u' & Hrun & Hscheme & Hhost & Hpath & _) & _).
  exists u'. repeat split; assumption.
Defined.

(** C2 as stated fails on [/alice/foo]: the reference has no scheme and no
    host and [get] accepts it, yet its path is kept, not prefixed. *)
Lemma DoGet_shorthand_keeps_rooted_path :
  url.Parse "/alice/foo" = inr (url.mkURL "" "" None "" "/alice/foo" "" "")
  /\ url.IsAbs (url.mkURL "" "" None "" "/alice/foo" "" "") = false
  /\ DoGet_shorthand (url.mkURL "" "" None "" "/alice/foo" "" "") two_foos
     = (Return (url.mkURL "https" "" None "github.com" "/alice/foo" "" ""),
        two_foos, [])
  /\ "/alice/foo" <> "/" +:+ "/alice/foo"
  /\ outcome_of (DoGet tool_Clone tool_Update hosted_NewRemoteRepository
                   "/alice/foo" false two_foos) = Return tt.
Proof. repeat split; try reflexivity. discriminate. Qed.

(** The two repositories [github.com/alice/foo] and [github.com/bob/foo]
    are listed as [alice/foo] and [bob/foo]. *)
Lemma DoList_unique_two_foos :
  DoList "" false false true two_foos
  = (Return tt, two_foos, [Println "alice/foo"; Println "bob/foo"]).
Proof.
  exact (proj1 (DoList_unique_selection "" false false two_foos eq_refl)).
Defined.

(** C4 as stated fails on the query [alice]: the filter retains one of the
    two repositories, [foo] is counted once although the walker emits it
    twice, and [foo] is the line printed. *)
Lemma DoList_counts_filtered :
  retained "alice" false two_foos = [alice_foo]
  /\ count_of (count_subpaths (retained "alice" false two_foos)) "foo" = 1
  /\ occurrences "foo" (repositories two_foos) = 2%nat
  /\ DoList "alice" false false true two_foos
     = (Return tt, two_foos, [Println "foo"]).
Proof. repeat split; vm_compute; reflexivity. Qed.

(** The descriptor of [https://github.com/alice/foo] yields four parts. *)
Lemma pathParts_alice_foo :
  PathParts (local_repository two_foos github_alice_foo)
  = ["github.com"; ""; "alice"; "foo"].
Proof.
  refine (proj1 (proj2 (pathParts_leading_empty_segment
                          two_foos github_alice_foo "github.com" "alice" "foo" _))).
  repeat split; try reflexivity; discriminate.
Defined.

(** Looking for [alice/foo] where it exists enters the shell there. *)
Lemma DoLook_alice_foo :
  DoLook "alice/foo" (sample_world [FullPath alice_foo] [alice_foo; bob_foo])
  = (Replaced, sample_world [FullPath alice_foo] [alice_foo; bob_foo],
     [Chdir (FullPath alice_foo) None; Exec "/bin/sh" ["/bin/sh"] None]).
Proof.
  destruct (DoLook_by_match_count
              "alice/foo" (sample_world [FullPath alice_foo] [alice_foo; bob_foo])
              ltac:(discriminate)) as (_ & Hone & _).
  exact (Hone alice_foo eq_refl).
Defined.

(** C6 as stated fails on the query [foo] over the two repositories: the
    candidates are listed below the root, no line holds a full path. *)
Lemma DoLook_lists_relative_paths :
  DoLook "foo" two_foos
  = (Return tt, two_foos,
     [Log "error"
          (Text "More than one repositories are found; Try more precise name");
      Log "error" (Text "- github.com/alice/foo");
      Log "error" (Text "- github.com/bob/foo")])
  /\ FullPath alice_foo = "/home/u/.ghq/github.com/alice/foo"
  /\ FullPath bob_foo = "/home/u/.ghq/github.com/bob/foo"
  /\ existsb (mentions (FullPath alice_foo)) (trace_of (DoLook "foo" two_foos))
     = false
  /\ existsb (mentions (FullPath bob_foo)) (trace_of (DoLook "foo" two_foos))
     = false.
Proof. repeat split; vm_compute; reflexivity. Qed.


(** *** [url.Parse] on the references of the specification *)

Example Parse_shorthand :
  url.Parse "alice/foo" = inr (url.mkURL "" "" None "" "alice/foo" "" "").
Proof. reflexivity. Qed.

Example Parse_absolute :
  url.Parse "https://github.com/alice/foo"
  = inr (url.mkURL "https" "" None "github.com" "/alice/foo" "" "").
Proof. reflexivity. Qed.

Example Parse_not_a_url :
  url.Parse "not a url" = inr (url.mkURL "" "" None "" "not a url" "" "").
Proof. reflexivity. Qed.

Example Parse_user_and_fragment :
  url.Parse "ssh://git@github.com/alice/foo.git#v1?x"
  = inr (url.mkURL "ssh" "" (Some (url.mkUserinfo "git" "" false)) "github.com"
                   "/alice/foo.git" "" "v1?x").
Proof. reflexivity. Qed.

Example Parse_opaque :
  url.Parse "mailto:alice@example.com"
  = inr (url.mkURL "mailto" "alice@example.com" None "" "" "" "").
Proof. reflexivity. Qed.

Example Parse_bad_escape :
  url.Parse "https://github.com/%zz"
  = inl (url_Error "parse" "https://github.com/%zz" (EscapeError "%zz")).
Proof. reflexivity. Qed.

Example Parse_missing_scheme :
  url.Parse ":alice"
  = inl (url_Error "parse" ":alice" (errorString "missing protocol scheme")).
Proof. reflexivity. Qed.

(** The two invalid references of the specification are rejected by [get]
    with an error line and a failure exit, under the resolver of the known
    hosts. *)
Example DoGet_rejects_spec_examples :
  DoGet tool_Clone tool_Update hosted_NewRemoteRepository "not a url" false
        two_foos
  = (Exit 1, two_foos,
     [Log "error"
          (Sprintf "Not a valid repository: %s"
             [ArgURL (url.mkURL "https" "" None "github.com" "/not a url" "" "")])])
  /\ DoGet tool_Clone tool_Update hosted_NewRemoteRepository
           "https://github.com/onlyowner" false two_foos
     = (Exit 1, two_foos,
        [Log "error"
             (Sprintf "Not a valid repository: %s"
                [ArgURL (url.mkURL "https" "" None "github.com" "/onlyowner" "" "")])]).
Proof. split; reflexivity. Qed.

(** *** Further properties of the commands *)

Section CommandProperties.

Variable run_Clone :
  VCSBackend -> url.URL -> string -> World -> World * option error.
Variable run_Update :
  option VCSBackend -> string -> World -> World * option error.
Variable NewRemoteRepository :
  url.URL -> option RemoteRepository * option error.

(** Without [--unique], [list] prints one line per retained repository, in
    discovery order: the full path with [--full-path], else the relative
    path. *)
Lemma DoList_plain_lines (query : string) (exact printFullPaths : bool)
    (w : World) :
  DoList query exact printFullPaths false w
  = (Return tt, w,
     map (fun repo =>
            Println (if printFullPaths then FullPath repo else RelPath repo))
         (retained query exact w)).
Proof.
  unfold DoList.
  rewrite (bind_return_quiet _ _ _ _ _ (walk_filter (filterFn query exact) w)).
  fold (retained query exact w).
  rewrite (for_each_quiet _ _
             (fun repo =>
                [Println (if printFullPaths then FullPath repo else RelPath repo)])
             w).
  - f_equal. induction (retained query exact w) as [|repo l IH]; [reflexivity|].
    cbn. rewrite IH. reflexivity.
  - intros repo. destruct printFullPaths; reflexivity.
Qed.

(** [get], [look] and [starred] without their argument show the help of
    the command and exit with failure. *)
Lemma commands_without_argument (fuel : nat) (doUpdate : bool) (w : World) :
  DoGet run_Clone run_Update NewRemoteRepository "" doUpdate w
  = (Exit 1, w, [ShowCommandHelp "get"])
  /\ DoLook "" w = (Exit 1, w, [ShowCommandHelp "look"])
  /\ DoStarred run_Clone run_Update NewRemoteRepository fuel "" doUpdate w
     = (Exit 1, w, [ShowCommandHelp "starred"]).
Proof. repeat split. Qed.

(** The page loop of [starred] ends with the page that reports itself as
    the last one: its repositories are handled and no further page is
    fetched. *)
Lemma DoStarred_last_page (fuel : nat) (user : string) (doUpdate : bool)
    (page : Z) (w : World) (repos : list Repository) :
  ListStarred w user page = inr (repos, mkResponse page) ->
  let items :=
    for_each repos (DoStarred_item run_Clone run_Update NewRemoteRepository
                                   doUpdate) w in
  DoStarred_pages run_Clone run_Update NewRemoteRepository
                  (S fuel) user doUpdate page w
  = (outcome_of items, world_of items,
     Log "page" (Sprintf "%d/%d" [ArgInt page; ArgInt page]) :: trace_of items).
Proof.
  intros Hpage items. cbn [DoStarred_pages].
  unfold bind at 1. unfold ask at 1. rewrite Hpage.
  cbn [results utils.DieIf deref]. rewrite !bind_ret_l. cbn [LastPage].
  unfold bind at 1. cbn [utils.Log emit]. rewrite Z.eqb_refl.
  unfold bind. fold items. destruct items as [[[[]| | | |] w1] t1]; cbn;
    rewrite ?app_nil_r; reflexivity.
Qed.

End CommandProperties.

(** An argument with a malformed escape makes [get] die on the parse
    error. *)
Lemma DoGet_unparseable_escape :
  DoGet tool_Clone tool_Update hosted_NewRemoteRepository
        "https://github.com/%zz" false two_foos
  = (Exit 1, two_foos,
     [Log "error"
          (ErrorText (url_Error "parse" "https://github.com/%zz"
                                (EscapeError "%zz")))]).
Proof.
  apply DoGet_unparseable; [discriminate | reflexivity].
Defined.

(** One page of starred repositories, reported as page 1 of 1. *)
Lemma DoStarred_single_page :
  trace_of
    (DoStarred_pages tool_Clone tool_Update hosted_NewRemoteRepository
       1 "alice" false 1 one_starred_page)
  = [Log "page" (Sprintf "%d/%d" [ArgInt 1; ArgInt 1]);
     Log "error"
         (Sprintf "Could not parse URL <%s>: %s"
            [ArgStringPtr (Some ":bad");
             ArgError (url_Error "parse" ":bad"
                                 (errorString "missing protocol scheme"))]);
     Log "clone"
         (Sprintf "%s -> %s"
            [ArgURL (URL github_alice_foo);
             ArgString (local_path two_foos github_alice_foo)]);
     Clone GitBackend (URL github_alice_foo)
           (local_path two_foos github_alice_foo) None].
Proof.
  rewrite (DoStarred_last_page tool_Clone tool_Update hosted_NewRemoteRepository
             0 "alice" false 1 one_starred_page
             [mkRepository (Some ":bad");
              mkRepository (Some "https://github.com/alice/foo")] eq_refl).
  reflexivity.
Defined.

(** [pocket] with a configured token and two entries, the first of an
    unknown host. *)
Example DoPocket_two_entries :
  trace_of
    (DoPocket tool_Clone tool_Update hosted_NewRemoteRepository false
       (with_pocket_entries [mkPocketItem "https://example.com/alice/foo";
                             mkPocketItem "https://github.com/alice/foo"]
                            two_foos))
  = [Log "pocket" (Text "Retrieving github.com entries");
     Log "error" (ErrorText (errorString "unsupported host"));
     Log "clone"
         (Sprintf "%s -> %s"
            [ArgURL (URL github_alice_foo);
             ArgString (local_path two_foos github_alice_foo)]);
     Clone GitBackend (URL github_alice_foo)
           (local_path two_foos github_alice_foo) None].
Proof. reflexivity. Qed.

(* ===================================================================== *)
(** ** Further properties of the commands *)
(* ===================================================================== *)

(** *** [url.Parse] on references without URL punctuation *)










Section Shorthand.

Variable run_Clone :
  VCSBackend -> url.URL -> string -> World -> World * option error.
Variable run_Update :
  option VCSBackend -> string -> World -> World * option error.
Variable NewRemoteRepository :
  url.URL -> option RemoteRepository * option error.

Local Abbreviation resolve := (DoGet_resolve NewRemoteRepository).
Local Abbreviation doGet := (DoGet run_Clone run_Update NewRemoteRepository).

(** What [DoGet] does from the parsed URL on. *)
Lemma DoGet_resolve_parsed (argUrl : string) (u0 : url.URL) (w : World) :
  url.Parse argUrl = inr u0 ->
  resolve argUrl w
  = match completed u0 with
    | None => (Panic IndexOutOfRange, w, [])
    | Some u =>
        match NewRemoteRepository u with
        | (_, Some e) => (Exit 1, w, [Log "error" (ErrorText e)])
        | (None, None) => (Panic NilDereference, w, [])
        | (Some remote, None) =>
            if IsValid remote then (Return remote, w, [])
            else (Exit 1, w,
                  [Log "error"
                       (Sprintf "Not a valid repository: %s" [ArgURL u])])
        end
    end.
Proof.
  intros Hparse. unfold DoGet_resolve, completed. rewrite Hparse.
  cbn [results utils.DieIf deref]. rewrite !bind_ret_l.
  pose proof (DoGet_shorthand_run u0 w) as Hshort.
  destruct (url.IsAbs u0).
  - rewrite (bind_return_quiet _ _ _ _ _ Hshort).
    destruct (NewRemoteRepository u0) as [[remote|] [e|]]; try reflexivity.
    cbn. destruct (IsValid remote); reflexivity.
  - destruct (String.eqb (url.Path u0) "").
    + apply bind_panic. exact Hshort.
    + rewrite (bind_return_quiet _ _ _ _ _ Hshort).
      destruct (NewRemoteRepository (github_completion u0)) as [[remote|] [e|]];
        try reflexivity.
      cbn. destruct (IsValid remote); reflexivity.
Qed.


End Shorthand.

(** *** The pipeline of [get] *)

Lemma bind_exit_1 {A B} (m : M A) (f : A -> M B) w w1 t1 :
  m w = (Exit 1, w1, t1) -> bind m f w = (Exit 1, w1, t1).
Proof. intros Hm. unfold bind. rewrite Hm. reflexivity. Qed.

Section GetPipeline.

Variable run_Clone :
  VCSBackend -> url.URL -> string -> World -> World * option error.
Variable run_Update :
  option VCSBackend -> string -> World -> World * option error.
Variable NewRemoteRepository :
  url.URL -> option RemoteRepository * option error.

Local Abbreviation get := (getRemoteRepository run_Clone run_Update).
Local Abbreviation doGet := (DoGet run_Clone run_Update NewRemoteRepository).

(** [DoGet] from the parsed URL on. *)
Lemma DoGet_parsed (argUrl : string) (doUpdate : bool) (u0 : url.URL)
    (w : World) :
  argUrl <> "" -> url.Parse argUrl = inr u0 ->
  doGet argUrl doUpdate w
  = match completed u0 with
    | None => (Panic IndexOutOfRange, w, [])
    | Some u =>
        match NewRemoteRepository u with
        | (_, Some e) => (Exit 1, w, [Log "error" (ErrorText e)])
        | (None, None) => (Panic NilDereference, w, [])
        | (Some remote, None) =>
            if IsValid remote then get remote doUpdate w
            else (Exit 1, w,
                  [Log "error"
                       (Sprintf "Not a valid repository: %s" [ArgURL u])])
        end
    end.
Proof.
  intros Hne Hparse. unfold DoGet.
  destruct (String.eqb_spec argUrl "") as [?|_]; [contradiction|].
  rewrite bind_ret_l.
  pose proof (DoGet_resolve_parsed NewRemoteRepository argUrl u0 w Hparse)
    as Hresolve.
  destruct (completed u0) as [u|]; [|exact (bind_panic _ _ _ _ _ _ Hresolve)].
  destruct (NewRemoteRepository u) as [[remote|] [e|]];
    try exact (bind_exit_1 _ _ _ _ _ Hresolve);
    try exact (bind_panic _ _ _ _ _ _ Hresolve).
  destruct (IsValid remote).
  - exact (bind_return_quiet _ _ _ _ _ Hresolve).
  - exact (bind_exit_1 _ _ _ _ _ Hresolve).
Qed.

(** What the resolver says decides what [get] does: an error or an invalid
    repository ends in one error line and a failure exit with the world
    untouched; only a valid repository reaches [getRemoteRepository]. *)
Theorem DoGet_resolver_verdicts (argUrl : string) (doUpdate : bool)
    (u0 u : url.URL) (w : World)
    (Hne : argUrl <> "") (Hparse : url.Parse argUrl = inr u0)
    (Hcompleted : completed u0 = Some u) :
  (forall r e, NewRemoteRepository u = (r, Some e) ->
     doGet argUrl doUpdate w = (Exit 1, w, [Log "error" (ErrorText e)]))
  /\ (forall remote,
        NewRemoteRepository u = (Some remote, None) -> IsValid remote = false ->
        doGet argUrl doUpdate w
        = (Exit 1, w,
           [Log "error" (Sprintf "Not a valid repository: %s" [ArgURL u])]))
  /\ (forall remote,
        NewRemoteRepository u = (Some remote, None) -> IsValid remote = true ->
        doGet argUrl doUpdate w = get remote doUpdate w).
Proof.
  pose proof (DoGet_parsed argUrl doUpdate u0 w Hne Hparse) as Hrun.
  rewrite Hcompleted in Hrun. split; [|split].
  - intros r e Hnew. rewrite Hrun, Hnew. destruct r; reflexivity.
  - intros remote Hnew Hvalid. rewrite Hrun, Hnew, Hvalid. reflexivity.
  - intros remote Hnew Hvalid. rewrite Hrun, Hnew, Hvalid. reflexivity.
Qed.

(** [get] calls a backend only for a reference that parsed, that the
    resolver accepted without error and that is a valid repository. *)
Theorem DoGet_backend_call_requires_valid (argUrl : string) (doUpdate : bool)
    (w : World)
    (Hcall : existsb backend_call (trace_of (doGet argUrl doUpdate w)) = true) :
  argUrl <> ""
  /\ exists u0 u remote,
       url.Parse argUrl = inr u0 /\ completed u0 = Some u
       /\ NewRemoteRepository u = (Some remote, None)
       /\ IsValid remote = true
       /\ doGet argUrl doUpdate w = get remote doUpdate w.
Proof.
  destruct (String.eqb_spec argUrl "") as [->|Hne]; [discriminate Hcall|].
  split; [exact Hne|].
  destruct (url.Parse argUrl) as [e|u0] eqn:Hparse.
  - assert (Hrun : doGet argUrl doUpdate w
                   = (Exit 1, w, [Log "error" (ErrorText e)])).
    { unfold DoGet, DoGet_resolve.
      destruct (String.eqb_spec argUrl "") as [?|_]; [contradiction|].
      rewrite bind_ret_l, Hparse. reflexivity. }
    rewrite Hrun in Hcall. discriminate Hcall.
  - pose proof (DoGet_parsed argUrl doUpdate u0 w Hne Hparse) as Hrun.
    destruct (completed u0) as [u|] eqn:Hcompleted;
      [|rewrite Hrun in Hcall; discriminate Hcall].
    destruct (NewRemoteRepository u) as [[remote|] [e|]] eqn:Hnew;
      try (rewrite Hrun in Hcall; discriminate Hcall).
    destruct (IsValid remote) eqn:Hvalid;
      [|rewrite Hrun in Hcall; discriminate Hcall].
    exists u0, u, remote. repeat split; assumption.
Qed.

(** [getRemoteRepository] calls a backend at most once, and only on the
    path whose existence it checked. *)
Theorem getRemoteRepository_backend_calls (remote : RemoteRepository)
    (doUpdate : bool) (w : World) :
  (length (List.filter backend_call (trace_of (get remote doUpdate w))) <= 1)%nat
  /\ (forall e, In e (trace_of (get remote doUpdate w)) ->
      backend_call e = true -> call_path e = Some (local_path w remote))
  /\ (existsb is_Update (trace_of (get remote doUpdate w)) = true
      <-> doUpdate = true /\ stat w (local_path w remote) = None).
Proof.
  rewrite getRemoteRepository_run. cbn zeta.
  destruct (stat w (local_path w remote)) as [e|].
  - destruct (os.IsNotExist e); cbn.
    + split; [lia|]. split.
      * intros ev [<-|[<-|[]]]; [discriminate | reflexivity].
      * split; [discriminate | intros [_ ?]; discriminate].
    + split; [lia|]. split; [intros ev []|].
      split; [discriminate | intros [_ ?]; discriminate].
  - destruct doUpdate; cbn.
    + split; [lia|]. split.
      * intros ev [<-|[<-|[]]]; [discriminate | reflexivity].
      * split; [auto | reflexivity].
    + split; [lia|]. split.
      * intros ev [<-|[]]; discriminate.
      * split; [discriminate | intros [? _]; discriminate].
Qed.

End GetPipeline.

(** *** What stops a batch *)

Section BatchFailures.

Variable run_Clone :
  VCSBackend -> url.URL -> string -> World -> World * option error.
Variable run_Update :
  option VCSBackend -> string -> World -> World * option error.
Variable NewRemoteRepository :
  url.URL -> option RemoteRepository * option error.

Local Abbreviation get := (getRemoteRepository run_Clone run_Update).
Local Abbreviation pocket_item :=
  (DoPocket_item run_Clone run_Update NewRemoteRepository).
Local Abbreviation starred_item :=
  (DoStarred_item run_Clone run_Update NewRemoteRepository).

(** An item that parses, resolves and is valid is handed to
    [getRemoteRepository], as parsed: the batch loops do not complete a
    URL without scheme. *)
Lemma batch_item_accepted (doUpdate : bool) (raw : string) (u : url.URL)
    (remote : RemoteRepository) (w : World) :
  url.Parse raw = inr u -> NewRemoteRepository u = (Some remote, None) ->
  IsValid remote = true ->
  pocket_item doUpdate (mkPocketItem raw) w = get remote doUpdate w
  /\ starred_item doUpdate (mkRepository (Some raw)) w = get remote doUpdate w.
Proof.
  intros Hparse Hnew Hvalid. unfold DoPocket_item, DoStarred_item.
  cbn [ResolvedURL HTMLURL deref]. rewrite !bind_ret_l, Hparse.
  cbn [results deref]. rewrite !bind_ret_l, Hnew.
  cbn [utils.ErrorIf]. rewrite !bind_ret_l. cbn [deref].
  rewrite !bind_ret_l, Hvalid. split; reflexivity.
Qed.

(** In a batch a stat error other than "does not exist" on one item stops
    the whole command: the panic leaves the loop and the remaining items
    are not handled. *)
Theorem batch_stat_error_aborts (doUpdate : bool) (raw : string) (u : url.URL)
    (remote : RemoteRepository) (w : World) (e : error)
    (Hparse : url.Parse raw = inr u)
    (Hnew : NewRemoteRepository u = (Some remote, None))
    (Hvalid : IsValid remote = true)
    (Hstat : stat w (local_path w remote) = Some e)
    (Hother : os.IsNotExist e = false) :
  (forall rest,
      for_each (mkPocketItem raw :: rest) (pocket_item doUpdate) w
      = (Panic (PanicError e), w, []))
  /\ (forall rest,
        for_each (mkRepository (Some raw) :: rest) (starred_item doUpdate) w
        = (Panic (PanicError e), w, [])).
Proof.
  destruct (batch_item_accepted doUpdate raw u remote w Hparse Hnew Hvalid)
    as [Hpocket Hstarred].
  pose proof (getRemoteRepository_run run_Clone run_Update remote doUpdate w)
    as Hget.
  cbn zeta in Hget. rewrite Hstat, Hother in Hget.
  split; intros rest; cbn [for_each]; apply bind_panic; congruence.
Qed.

(** A failed fetch of a page ends [starred] with the error and a failure
    exit before anything of that page is logged or handled; a starred
    repository without URL stops the command with a nil-dereference panic,
    and the repositories after it are not handled. *)
Theorem DoStarred_failures (fuel : nat) (user : string) (doUpdate : bool)
    (page : Z) (w : World) :
  (forall e, ListStarred w user page = inl e ->
     DoStarred_pages run_Clone run_Update NewRemoteRepository
                     (S fuel) user doUpdate page w
     = (Exit 1, w, [Log "error" (ErrorText e)]))
  /\ (forall rest,
        for_each (mkRepository None :: rest) (starred_item doUpdate) w
        = (Panic NilDereference, w, []))
  /\ (forall rest res,
        ListStarred w user page = inr (mkRepository None :: rest, res) ->
        DoStarred_pages run_Clone run_Update NewRemoteRepository
                        (S fuel) user doUpdate page w
        = (Panic NilDereference, w,
           [Log "page" (Sprintf "%d/%d" [ArgInt page; ArgInt (LastPage res)])])).
Proof.
  split; [|split].
  - intros e Hfetch. cbn [DoStarred_pages].
    unfold bind at 1. unfold ask at 1. rewrite Hfetch. reflexivity.
  - intros rest. reflexivity.
  - intros rest res Hfetch. cbn [DoStarred_pages].
    unfold bind at 1. unfold ask at 1. rewrite Hfetch. reflexivity.
Qed.

End BatchFailures.

(** *** The steps of [pocket] *)

Lemma existsb_concat {A} (f : A -> bool) (ls : list (list A)) :
  (forall l, In l ls -> existsb f l = false) -> existsb f (concat ls) = false.
Proof.
  induction ls as [|l ls IH]; intros Hall; [reflexivity|].
  cbn [concat]. rewrite existsb_app, (Hall l) by (left; reflexivity).
  apply IH. intros l' Hl'. apply Hall. right. exact Hl'.
Qed.

Lemma item_traces_In {A} (body : A -> M unit) (items : list A) (w : World)
    (t : list Event) :
  In t (item_traces body items w) ->
  exists item w', In item items /\ t = trace_of (body item w').
Proof.
  revert w. induction items as [|item rest IH]; intros w; [intros []|].
  cbn [item_traces]. intros [<-|Hin].
  - exists item, w. split; [left|]; reflexivity.
  - destruct (outcome_of (body item w)); try destruct Hin.
    destruct (IH _ Hin) as (item' & w' & Hitem' & ->).
    exists item', w'. split; [right; exact Hitem' | reflexivity].
Qed.

Section PocketProperties.

Variable run_Clone :
  VCSBackend -> url.URL -> string -> World -> World * option error.
Variable run_Update :
  option VCSBackend -> string -> World -> World * option error.
Variable NewRemoteRepository :
  url.URL -> option RemoteRepository * option error.

Local Abbreviation get := (getRemoteRepository run_Clone run_Update).
Local Abbreviation pocket_item :=
  (DoPocket_item run_Clone run_Update NewRemoteRepository).
Local Abbreviation doPocket :=
  (DoPocket run_Clone run_Update NewRemoteRepository).

Lemma getRemoteRepository_no_authorization (remote : RemoteRepository)
    (doUpdate : bool) (w : World) :
  existsb authorization_event (trace_of (get remote doUpdate w)) = false.
Proof.
  rewrite getRemoteRepository_run. cbn zeta.
  destruct (stat w _) as [e|]; [destruct (os.IsNotExist e) | destruct doUpdate];
    reflexivity.
Qed.

Lemma DoPocket_item_no_authorization (doUpdate : bool) (item : PocketItem)
    (w : World) :
  existsb authorization_event (trace_of (pocket_item doUpdate item w)) = false.
Proof.
  unfold DoPocket_item.
  destruct (url.Parse (ResolvedURL item)) as [e|u]; [reflexivity|].
  cbn [results deref]. rewrite bind_ret_l.
  destruct (NewRemoteRepository u) as [[remote|] [e|]]; try reflexivity.
  cbn [utils.ErrorIf]. rewrite bind_ret_l. cbn [deref]. rewrite bind_ret_l.
  destruct (IsValid remote); [|reflexivity].
  apply getRemoteRepository_no_authorization.
Qed.

(** With a token configured [pocket] takes no authorization step: nothing
    is opened, reported as authorized or written to the git configuration;
    the entries are retrieved with the configured token. *)
Theorem DoPocket_configured_token (doUpdate : bool) (w : World)
    (token : string)
    (Hconfig : GitConfig w "ghq.pocket.token" = (token, None))
    (Htoken : token <> "") :
  existsb authorization_event (trace_of (doPocket doUpdate w)) = false
  /\ (forall items e,
        RetrieveGitHubEntries (pocket w) token = (items, Some e) ->
        doPocket doUpdate w
        = (Exit 1, w,
           [Log "pocket" (Text "Retrieving github.com entries");
            Log "error" (ErrorText e)]))
  /\ (forall items,
        RetrieveGitHubEntries (pocket w) token = (items, None) ->
        trace_of (doPocket doUpdate w)
        = Log "pocket" (Text "Retrieving github.com entries")
          :: trace_of (for_each items (pocket_item doUpdate) w)).
Proof.
  assert (Hfail : forall items e,
             RetrieveGitHubEntries (pocket w) token = (items, Some e) ->
             doPocket doUpdate w
             = (Exit 1, w,
                [Log "pocket" (Text "Retrieving github.com entries");
                 Log "error" (ErrorText e)])).
  { intros items e Hentries. unfold DoPocket.
    unfold bind at 1. unfold ask at 1. rewrite Hconfig. cbn [utils.PanicIf].
    rewrite bind_ret_l.
    destruct (String.eqb_spec token "") as [?|_]; [contradiction|].
    rewrite bind_ret_l. unfold bind at 1. cbn [utils.Log emit].
    unfold bind at 1. unfold ask at 1. rewrite Hentries. reflexivity. }
  assert (Hgo : forall items,
             RetrieveGitHubEntries (pocket w) token = (items, None) ->
             trace_of (doPocket doUpdate w)
             = Log "pocket" (Text "Retrieving github.com entries")
               :: trace_of (for_each items (pocket_item doUpdate) w)).
  { intros items Hentries.
    rewrite (DoPocket_entries run_Clone run_Update NewRemoteRepository
               doUpdate w token items Hconfig Htoken Hentries).
    reflexivity. }
  split; [|split; assumption].
  destruct (RetrieveGitHubEntries (pocket w) token) as [items [e|]] eqn:Hentries.
  - rewrite (Hfail items e eq_refl). reflexivity.
  - rewrite (Hgo items eq_refl). cbn [existsb authorization_event String.eqb].
    cbn. rewrite for_each_traces. apply existsb_concat.
    intros t (item & w' & _ & ->)%item_traces_In.
    apply DoPocket_item_no_authorization.
Qed.

(** Without a configured token [pocket] obtains one: it shows the
    authorization URL, stores the access token it is given with
    [git config] and retrieves the entries with that same token. *)
Theorem DoPocket_authorization (doUpdate : bool) (w : World)
    (receiverURL code username token : string) (items : list PocketItem)
    (Hconfig : GitConfig w "ghq.pocket.token" = ("", None))
    (Hreceiver : StartAccessTokenReceiver (pocket w) = (receiverURL, None))
    (Hrequest : ObtainRequestToken (pocket w) receiverURL = (code, None))
    (Haccess : ObtainAccessToken (pocket w) code = ((username, token), None))
    (Hentries : RetrieveGitHubEntries (pocket w) token = (items, None)) :
  doPocket doUpdate w
  = (outcome_of (for_each items (pocket_item doUpdate) w),
     world_of (for_each items (pocket_item doUpdate) w),
     [Log "pocket"
          (Text ("Waiting for Pocket authentication callback at " +:+ receiverURL));
      Log "pocket" (Text "Obtaining request token");
      Log "open" (Text (GenerateAuthorizationURL (pocket w) code receiverURL));
      Log "pocket" (Text "Obtaining access token");
      Log "authorized" (Text username);
      Run "git" ["config"; "ghq.pocket.token"; token];
      Log "pocket" (Text "Retrieving github.com entries")]
     ++ trace_of (for_each items (pocket_item doUpdate) w)).
Proof.
  unfold DoPocket. unfold bind at 1. unfold ask at 1. rewrite Hconfig.
  cbn [utils.PanicIf String.eqb]. rewrite bind_ret_l.
  unfold DoPocket_authorize. unfold bind, ask, utils.Log, utils.Run, emit, ret.
  rewrite Hreceiver. cbn [utils.PanicIf ret]. rewrite Hrequest.
  cbn [utils.DieIf ret]. rewrite Haccess. cbn [utils.DieIf ret].
  rewrite Hentries. cbn [utils.DieIf ret].
  destruct (for_each items _ w) as [[o w'] t]. reflexivity.
Qed.

(** Where [pocket] gives up before any entry is handled: an error of the
    configuration read or of the callback receiver is a panic, an error of
    a token request a failure exit. *)
Theorem DoPocket_failures (doUpdate : bool) (w : World) :
  (forall token e,
      GitConfig w "ghq.pocket.token" = (token, Some e) ->
      doPocket doUpdate w = (Panic (PanicError e), w, []))
  /\ (GitConfig w "ghq.pocket.token" = ("", None) ->
      (forall receiverURL e,
          StartAccessTokenReceiver (pocket w) = (receiverURL, Some e) ->
          doPocket doUpdate w = (Panic (PanicError e), w, []))
      /\ (forall receiverURL code e,
            StartAccessTokenReceiver (pocket w) = (receiverURL, None) ->
            ObtainRequestToken (pocket w) receiverURL = (code, Some e) ->
            outcome_of (doPocket doUpdate w) = Exit 1
            /\ existsb authorization_event (trace_of (doPocket doUpdate w))
               = false)
      /\ (forall receiverURL code authorized e,
            StartAccessTokenReceiver (pocket w) = (receiverURL, None) ->
            ObtainRequestToken (pocket w) receiverURL = (code, None) ->
            ObtainAccessToken (pocket w) code = (authorized, Some e) ->
            outcome_of (doPocket doUpdate w) = Exit 1
            /\ existsb is_Run (trace_of (doPocket doUpdate w)) = false)).
Proof.
  split.
  - intros token e Hconfig. unfold DoPocket.
    unfold bind at 1. unfold ask at 1. rewrite Hconfig. reflexivity.
  - intros Hconfig.
    assert (Hrun : doPocket doUpdate w
                   = bind DoPocket_authorize
                       (fun accessToken =>
                          utils.Log "pocket" (Text "Retrieving github.com entries") ;;;
                          svc <- ask pocket ;;
                          let '(items, err) := RetrieveGitHubEntries svc accessToken in
                          utils.DieIf err ;;;
                          for_each items (pocket_item doUpdate)) w).
    { unfold DoPocket.
      rewrite (bind_return_quiet
                 (ask (fun w => GitConfig w "ghq.pocket.token")) _ w
                 (GitConfig w "ghq.pocket.token") w eq_refl).
      rewrite Hconfig. cbn [utils.PanicIf String.eqb]. rewrite bind_ret_l.
      reflexivity. }
    rewrite Hrun. unfold DoPocket_authorize.
    split; [|split].
    + intros receiverURL e Hreceiver.
      unfold bind, ask. rewrite Hreceiver. reflexivity.
    + intros receiverURL code e Hreceiver Hrequest.
      unfold bind, ask, utils.Log, emit, ret. rewrite Hreceiver.
      cbn [utils.PanicIf ret]. rewrite Hrequest. split; reflexivity.
    + intros receiverURL code [username token] e Hreceiver Hrequest Haccess.
      unfold bind, ask, utils.Log, emit, ret. rewrite Hreceiver.
      cbn [utils.PanicIf ret]. rewrite Hrequest. cbn [utils.DieIf ret].
      rewrite Haccess. split; reflexivity.
Qed.

End PocketProperties.

(** *** Names that identify a repository *)








Lemma DoLook_run (name : string) (w : World) :
  name <> "" ->
  DoLook name w
  = match List.filter (fun repo => Matches repo name) (repositories w) with
    | [] => (Return tt, w, [Log "error" (Text "No repository found")])
    | [repo] =>
        let shell :=
          if String.eqb (getenv w "SHELL") "" then "/bin/sh"
          else getenv w "SHELL" in
        match chdir w (FullPath repo) with
        | Some e => (Panic (PanicError e), w, [Chdir (FullPath repo) (Some e)])
        | None =>
            (match exec w shell with Some _ => Return tt | None => Replaced end,
             w, [Chdir (FullPath repo) None; Exec shell [shell] (exec w shell)])
        end
    | found =>
        (Return tt, w,
         Log "error"
             (Text "More than one repositories are found; Try more precise name")
         :: map (fun repo =>
                   Log "error" (Text ("- " +:+ strings.Join (PathParts repo) "/")))
                found)
    end.
Proof.
  intros Hname. rewrite (DoLook_found name w Hname).
  destruct (List.filter _ _) as [|repo [|repo' rest]]; [reflexivity| |].
  - unfold bind, os.Getenv, os.Chdir, ask, utils.PanicIf, syscall.Exec, stop, ret.
    cbn zeta. destruct (chdir w (FullPath repo)) as [e|]; [reflexivity|].
    destruct (exec w _) as [e|]; reflexivity.
  - unfold bind at 1. cbn [utils.Log emit].
    rewrite (for_each_quiet _ _
               (fun repo =>
                  [Log "error" (Text ("- " +:+ strings.Join (PathParts repo) "/"))])
               w (fun _ => eq_refl)).
    cbn [app]. do 2 f_equal.
    generalize (repo :: repo' :: rest). intros l.
    induction l as [|x l IH]; [reflexivity|]. cbn. rewrite IH. reflexivity.
Qed.

Lemma no_Exec_in_logs {A} (f : A -> Message) (l : list A) :
  existsb is_Exec (map (fun a => Log "error" (f a)) l) = false.
Proof. induction l as [|a l IH]; [reflexivity | exact IH]. Qed.

(** [look] executes a shell only when exactly one repository matches the
    name and the change into its directory succeeded. *)
Theorem DoLook_exec_requires_single_match (name : string) (w : World) :
  existsb is_Exec (trace_of (DoLook name w)) = true
  <-> name <> ""
      /\ exists repo,
           List.filter (fun r => Matches r name) (repositories w) = [repo]
           /\ chdir w (FullPath repo) = None.
Proof.
  destruct (String.eqb_spec name "") as [->|Hname].
  - split; [discriminate | intros [? _]; contradiction].
  - rewrite (DoLook_run name w Hname).
    destruct (List.filter _ _) as [|repo [|repo' rest]].
    + split; [discriminate | intros (_ & repo & ? & _); discriminate].
    + cbn zeta. destruct (chdir w (FullPath repo)) as [e|] eqn:Hchdir.
      * split; [discriminate|].
        intros (_ & repo' & [= <-] & Hok). congruence.
      * split; [|reflexivity]. intros _. split; [exact Hname|].
        exists repo. split; [reflexivity | exact Hchdir].
    + cbn [trace_of snd existsb is_Exec orb]. rewrite no_Exec_in_logs.
      split; [discriminate | intros (_ & r & ? & _); discriminate].
Qed.

Lemma retained_exact (query : string) (w : World) :
  query <> "" ->
  retained query true w
  = List.filter (fun repo => Matches repo query) (repositories w).
Proof.
  intros Hq. unfold retained, filterFn.
  destruct (String.eqb_spec query "") as [?|_]; [contradiction | reflexivity].
Qed.

Lemma DoList_full_paths (query : string) (exact : bool) (w : World) :
  DoList query exact true false w
  = (Return tt, w, map (fun repo => Println (FullPath repo)) (retained query exact w)).
Proof.
  unfold DoList.
  rewrite (bind_return_quiet _ _ _ _ _ (walk_filter (filterFn query exact) w)).
  fold (retained query exact w).
  rewrite (for_each_quiet _ _ (fun repo => [Println (FullPath repo)]) w
             (fun _ => eq_refl)).
  f_equal. induction (retained query exact w) as [|repo l IH]; [reflexivity|].
  cbn. rewrite IH. reflexivity.
Qed.

(** [list -e -p name] prints the full paths of exactly the repositories
    [look name] chooses among: it prints nothing when [look] finds none,
    and when it prints one line that line is the directory [look] enters. *)
Theorem list_exact_agrees_with_look (name : string) (w : World)
    (Hname : name <> "") :
  let found := List.filter (fun repo => Matches repo name) (repositories w) in
  DoList name true true false w
  = (Return tt, w, map (fun repo => Println (FullPath repo)) found)
  /\ (found = []
      <-> DoLook name w
          = (Return tt, w, [Log "error" (Text "No repository found")]))
  /\ (forall repo, found = [repo] ->
      trace_of (DoList name true true false w) = [Println (FullPath repo)]
      /\ hd_error (trace_of (DoLook name w))
         = Some (Chdir (FullPath repo) (chdir w (FullPath repo)))).
Proof.
  intros found.
  pose proof (DoList_full_paths name true w) as Hlist.
  rewrite (retained_exact name w Hname) in Hlist. fold found in Hlist.
  pose proof (DoLook_run name w Hname) as Hlook. fold found in Hlook.
  split; [exact Hlist|]. split.
  - split.
    + intros Hnone. rewrite Hlook, Hnone. reflexivity.
    + intros Hrun. rewrite Hrun in Hlook.
      destruct found as [|repo [|repo' rest]]; [reflexivity| |discriminate].
      cbn zeta in Hlook. destruct (chdir w (FullPath repo)); discriminate.
  - intros repo Hone. rewrite Hlist, Hlook, Hone. cbn zeta.
    split; [reflexivity|].
    destruct (chdir w (FullPath repo)); reflexivity.
Qed.


(** *** Path parts and the URL they come from *)

Lemma Split_not_nil (s : string) : strings.Split s "/" <> [].
Proof.
  destruct s as [|c s]; [discriminate|]. cbn [strings.Split].
  destruct (Ascii.eqb c "/"); [discriminate|].
  destruct (strings.Split s "/"); discriminate.
Qed.

Lemma Join_cons_char (c : ascii) (piece : string) (pieces : list string) :
  strings.Join (String c piece :: pieces) "/"
  = String c (strings.Join (piece :: pieces) "/").
Proof. destruct pieces; reflexivity. Qed.

Lemma Join_Split (s : string) : strings.Join (strings.Split s "/") "/" = s.
Proof.
  induction s as [|c s IH]; [reflexivity|].
  cbn [strings.Split]. pose proof (Split_not_nil s) as Hne.
  destruct (Ascii.eqb_spec c "/") as [->|Hc].
  - destruct (strings.Split s "/") as [|piece pieces]; [contradiction|].
    rewrite Join_cons, IH. reflexivity.
  - destruct (strings.Split s "/") as [|piece pieces]; [contradiction|].
    rewrite Join_cons_char, IH. reflexivity.
Qed.

(** The path parts of a URL, joined by ["/"], are its host, a ["/"] and
    its path, whatever the URL; hence two URLs with the same parts have the
    same host and the same path. *)
Theorem pathParts_round_trip (u : url.URL) :
  strings.Join (pathPartsOf u) "/" = url.Host u +:+ "/" +:+ url.Path u
  /\ (forall u', pathPartsOf u = pathPartsOf u' ->
      url.Host u = url.Host u' /\ url.Path u = url.Path u')
  /\ (2 <= length (pathPartsOf u))%nat.
Proof.
  unfold pathPartsOf. cbn [app]. split; [|split].
  - pose proof (Split_not_nil (url.Path u)) as Hne.
    pose proof (Join_Split (url.Path u)) as Hjoin.
    destruct (strings.Split (url.Path u) "/") as [|piece pieces];
      [contradiction|].
    rewrite Join_cons, Hjoin. reflexivity.
  - intros u' [= Hhost Hsplit]. split; [exact Hhost|].
    rewrite <- (Join_Split (url.Path u)), <- (Join_Split (url.Path u')), Hsplit.
    reflexivity.
  - pose proof (Split_not_nil (url.Path u)) as Hne.
    destruct (strings.Split (url.Path u) "/"); [contradiction | cbn; lia].
Qed.

(** *** The usage template *)

Lemma fold_clauses (args : gmap string string) (commands : list Command)
    (acc : Pieces) :
  fold_left (fun argsTemplate command => argsTemplate ++ [clause args command])
            commands acc
  = acc ++ map (clause args) commands.
Proof.
  revert acc. induction commands as [|command commands IH]; intros acc.
  - cbn. rewrite app_nil_r. reflexivity.
  - cbn [fold_left map]. rewrite IH, <- app_assoc. reflexivity.
Qed.

Lemma usage_of_clauses (args : gmap string string) (commands : list Command)
    (rest : Pieces) (name : string) :
  usage_of (map (clause args) commands ++ rest) name
  = if existsb (fun command => String.eqb (Name command) name) commands
    then default "" (args !! name)
    else usage_of rest name.
Proof.
  induction commands as [|command commands IH]; [reflexivity|].
  cbn [map app usage_of clause existsb].
  destruct (String.eqb_spec (Name command) name) as [->|Hne];
    [reflexivity | exact IH].
Qed.

(** The usage template holds one clause per command, in the order of the
    command list, between its opening and closing pieces; read for a
    command name it gives the entry of the argument table for that name,
    and nothing for a name without entry or without command. Each of the
    five commands of ghq has an entry. *)
Theorem init_usage (commands : list Command) (args : gmap string string) :
  argsTemplate_of commands args
  = [Text "{{if false}}"] ++ map (clause args) commands ++ [Text "{{end}}"]
  /\ (forall name,
        usage_of (argsTemplate_of commands args) name
        = if existsb (fun command => String.eqb (Name command) name) commands
          then default "" (args !! name) else "")
  /\ List.NoDup (map Name Commands)
  /\ Forall (fun command =>
               is_Some (commandArguments !! Name command)
               /\ usage_of CommandHelpTemplate (Name command) <> "")
            Commands.
Proof.
  assert (Hshape : argsTemplate_of commands args
                   = [Text "{{if false}}"] ++ map (clause args) commands
                     ++ [Text "{{end}}"]).
  { unfold argsTemplate_of. rewrite fold_clauses, <- app_assoc. reflexivity. }
  split; [exact Hshape|]. split.
  - intros name. rewrite Hshape. cbn [app usage_of].
    rewrite usage_of_clauses. reflexivity.
  - split.
    + repeat constructor; cbn; intuition discriminate.
    + repeat constructor; try (eexists; vm_compute; reflexivity);
        vm_compute; discriminate.
Qed.

(** *** The pages of [starred] *)

Lemma page_numbers_app (t1 t2 : list Event) :
  page_numbers (t1 ++ t2) = page_numbers t1 ++ page_numbers t2.
Proof. unfold page_numbers. apply omap_app. Qed.

Lemma pages_from_cons (first : Z) (count : nat) :
  pages_from first (S count) = first :: pages_from (first + 1) count.
Proof.
  unfold pages_from. cbn [seq map]. rewrite Z.add_0_r. f_equal.
  rewrite <- seq_shift, map_map. apply map_ext. intros i. lia.
Qed.

Section StarredPages.

Variable run_Clone :
  VCSBackend -> url.URL -> string -> World -> World * option error.
Variable run_Update :
  option VCSBackend -> string -> World -> World * option error.
Variable NewRemoteRepository :
  url.URL -> option RemoteRepository * option error.
Hypothesis Hkeep : keeps_ListStarred run_Clone run_Update.

Local Abbreviation get := (getRemoteRepository run_Clone run_Update).
Local Abbreviation starred_item :=
  (DoStarred_item run_Clone run_Update NewRemoteRepository).
Local Abbreviation pages :=
  (DoStarred_pages run_Clone run_Update NewRemoteRepository).

Lemma getRemoteRepository_inside_page (remote : RemoteRepository)
    (doUpdate : bool) (w : World) :
  inside_page w (get remote doUpdate w).
Proof.
  destruct Hkeep as [Hclone Hupdate]. unfold inside_page, ended.
  rewrite getRemoteRepository_run. cbn zeta.
  destruct (stat w _) as [e|]; [destruct (os.IsNotExist e) | destruct doUpdate];
    cbn [world_of trace_of outcome_of fst snd];
    rewrite ?Hclone, ?Hupdate; repeat split; eauto.
Qed.

Lemma DoStarred_item_inside_page (doUpdate : bool) (repo : Repository)
    (w : World) :
  inside_page w (starred_item doUpdate repo w).
Proof.
  unfold DoStarred_item.
  destruct (HTMLURL repo) as [raw|];
    [|unfold inside_page, ended; repeat split; eauto].
  cbn [deref]. rewrite bind_ret_l.
  destruct (url.Parse raw) as [e|u];
    [unfold inside_page, ended; repeat split; eauto|].
  cbn [results deref]. rewrite bind_ret_l.
  destruct (NewRemoteRepository u) as [[remote|] [e|]];
    try (unfold inside_page, ended; repeat split; eauto; fail).
  cbn [utils.ErrorIf]. rewrite bind_ret_l. cbn [deref]. rewrite bind_ret_l.
  destruct (IsValid remote);
    [apply getRemoteRepository_inside_page
    | unfold inside_page, ended; repeat split; eauto].
Qed.

Lemma for_each_inside_page (doUpdate : bool) (repos : list Repository)
    (w : World) :
  inside_page w (for_each repos (starred_item doUpdate) w).
Proof.
  revert w. induction repos as [|repo repos IH]; intros w;
    [unfold inside_page, ended; repeat split; eauto|].
  cbn [for_each]. unfold bind.
  destruct (DoStarred_item_inside_page doUpdate repo w) as (Hw & Hp & Hend).
  destruct (starred_item doUpdate repo w) as [[o w1] t1].
  cbn [world_of trace_of outcome_of fst snd] in Hw, Hp, Hend.
  destruct Hend as [[[] ->]|[v ->]].
  - destruct (IH w1) as (Hw' & Hp' & Hend').
    destruct (for_each repos (starred_item doUpdate) w1) as [[o2 w2] t2].
    cbn [world_of trace_of outcome_of fst snd] in *.
    unfold inside_page. cbn [world_of trace_of outcome_of fst snd].
    rewrite page_numbers_app, Hp, Hp', Hw', Hw. repeat split. exact Hend'.
  - unfold inside_page, ended. cbn [world_of trace_of outcome_of fst snd].
    repeat split; eauto.
Qed.

Lemma page_numbers_page_line (page N : Z) (t1 t : list Event) :
  page_numbers t1 = [] ->
  page_numbers (Log "page" (Sprintf "%d/%d" [ArgInt page; ArgInt N]) :: t1 ++ t)
  = page :: page_numbers t.
Proof.
  intros Hp.
  change (Log "page" (Sprintf "%d/%d" [ArgInt page; ArgInt N]) :: t1 ++ t)
    with ([Log "page" (Sprintf "%d/%d" [ArgInt page; ArgInt N])] ++ t1 ++ t).
  rewrite !page_numbers_app, Hp. reflexivity.
Qed.

(** One turn of the page loop. *)
Lemma DoStarred_pages_turn (fuel : nat) (user : string) (doUpdate : bool)
    (page N : Z) (w : World) (repos : list Repository) :
  ListStarred w user page = inr (repos, mkResponse N) ->
  pages (S fuel) user doUpdate page w
  = let line := Log "page" (Sprintf "%d/%d" [ArgInt page; ArgInt N]) in
    let r := for_each repos (starred_item doUpdate) w in
    match outcome_of r with
    | Return _ =>
        if page =? N then (Return tt, world_of r, line :: trace_of r)
        else
          let r' := pages fuel user doUpdate (wrap_int (page + 1)) (world_of r) in
          (outcome_of r', world_of r', line :: trace_of r ++ trace_of r')
    | o => (o, world_of r, line :: trace_of r)
    end.
Proof.
  intros Hpage. cbn [DoStarred_pages].
  unfold bind at 1. unfold ask at 1. rewrite Hpage.
  cbn [results utils.DieIf deref]. rewrite !bind_ret_l. cbn [LastPage].
  unfold bind at 1. cbn [utils.Log emit]. unfold bind at 1. cbn zeta.
  destruct (for_each repos (starred_item doUpdate) w) as [[[[]| | | |] w1] t1];
    cbn [world_of trace_of outcome_of fst snd app]; try reflexivity.
  destruct (page =? N).
  - cbn [ret]. rewrite app_nil_r. reflexivity.
  - destruct (pages fuel user doUpdate (wrap_int (page + 1)) w1) as [[o2 w2] t2].
    reflexivity.
Qed.

Lemma DoStarred_pages_ordered (user : string) (doUpdate : bool) (N : Z)
    (repos_of : Z -> list Repository) (n : nat) :
  forall (page : Z) (w : World) (fuel : nat),
    1 <= page -> page + Z.of_nat n = N -> N < 2 ^ 63 -> (n < fuel)%nat ->
    (forall k, page <= k <= N ->
               ListStarred w user k = inr (repos_of k, mkResponse N)) ->
    ended (outcome_of (pages fuel user doUpdate page w))
    /\ exists m,
         (m <= n)%nat
         /\ page_numbers (trace_of (pages fuel user doUpdate page w))
            = pages_from page (S m)
         /\ (outcome_of (pages fuel user doUpdate page w) = Return tt -> m = n).
Proof.
  induction n as [|n IH]; intros page w fuel Hpage HN Hbound Hfuel Hpaged;
    (destruct fuel as [|fuel]; [lia|]);
    rewrite (DoStarred_pages_turn fuel user doUpdate page N w (repos_of page))
      by (apply Hpaged; lia);
    cbn zeta;
    destruct (for_each_inside_page doUpdate (repos_of page) w) as (Hw & Hp & Hend);
    destruct (for_each (repos_of page) (starred_item doUpdate) w) as [[o w1] t1];
    cbn [world_of trace_of outcome_of fst snd] in Hw, Hp, Hend |- *;
    destruct Hend as [[[] ->]|[v ->]].
  - replace (page =? N) with true by (symmetry; apply Z.eqb_eq; lia).
    cbn [world_of trace_of outcome_of fst snd].
    split; [unfold ended; eauto|]. exists 0%nat. split; [lia|]. split; [|reflexivity].
    rewrite <- (app_nil_r t1), (page_numbers_page_line page N t1 [] Hp).
    cbn. rewrite Z.add_0_r. reflexivity.
  - cbn [world_of trace_of outcome_of fst snd].
    split; [unfold ended; eauto|]. exists 0%nat. split; [lia|]. split; [|discriminate].
    rewrite <- (app_nil_r t1), (page_numbers_page_line page N t1 [] Hp).
    cbn. rewrite Z.add_0_r. reflexivity.
  - replace (page =? N) with false by (symmetry; apply Z.eqb_neq; lia).
    rewrite (wrap_int_small (page + 1)) by lia.
    destruct (IH (page + 1) w1 fuel) as (Hend' & m & Hm & Hpages & Hlast);
      [lia | lia | lia | lia | |].
    { intros k Hk. rewrite Hw. apply Hpaged. lia. }
    cbn [world_of trace_of outcome_of fst snd].
    split; [exact Hend'|]. exists (S m). split; [lia|]. split.
    + rewrite (page_numbers_page_line page N t1 _ Hp), Hpages.
      symmetry. apply pages_from_cons.
    + intros Ho. rewrite (Hlast Ho). reflexivity.
  - cbn [world_of trace_of outcome_of fst snd].
    split; [unfold ended; eauto|]. exists 0%nat. split; [lia|]. split; [|discriminate].
    rewrite <- (app_nil_r t1), (page_numbers_page_line page N t1 [] Hp).
    cbn. rewrite Z.add_0_r. reflexivity.
Qed.

(** When GitHub answers each page up to the last one [N] it reports,
    [starred] ends after at most [N] fetches: it returns or an item
    panics, it never exits and never asks for a page beyond [N]. The pages
    are fetched in the order 1, 2, ... and all [N] of them when the
    command returns. *)
Theorem DoStarred_terminates (user : string) (doUpdate : bool) (N : Z)
    (repos_of : Z -> list Repository) (w : World) (fuel : nat)
    (Huser : user <> "") (HN : 1 <= N < 2 ^ 63) (Hfuel : N <= Z.of_nat fuel)
    (Hpaged : forall k, 1 <= k <= N ->
                ListStarred w user k = inr (repos_of k, mkResponse N)) :
  let r := DoStarred run_Clone run_Update NewRemoteRepository
                     fuel user doUpdate w in
  ended (outcome_of r)
  /\ exists m,
       (1 <= m <= Z.to_nat N)%nat
       /\ page_numbers (trace_of r) = pages_from 1 m
       /\ (outcome_of r = Return tt -> m = Z.to_nat N).
Proof.
  cbn zeta. unfold DoStarred.
  destruct (String.eqb_spec user "") as [?|_]; [contradiction|].
  rewrite bind_ret_l.
  destruct (DoStarred_pages_ordered user doUpdate N repos_of (Z.to_nat (N - 1))
              1 w fuel) as (Hend & m & Hm & Hpages & Hlast);
    [lia | lia | lia | lia | exact Hpaged |].
  split; [exact Hend|]. exists (S m). split; [lia|]. split; [exact Hpages|].
  intros Ho. rewrite (Hlast Ho). lia.
Qed.

End StarredPages.

(* ===================================================================== *)
(** ** The further properties at concrete inputs *)
(* ===================================================================== *)


(** A URL of a host the resolver does not know is refused with the
    resolver's error. *)
Lemma DoGet_unknown_host :
  DoGet tool_Clone tool_Update hosted_NewRemoteRepository
        "https://example.com/alice/foo" false two_foos
  = (Exit 1, two_foos,
     [Log "error" (ErrorText (errorString "unsupported host"))]).
Proof.
  exact (proj1 (DoGet_resolver_verdicts tool_Clone tool_Update
                  hosted_NewRemoteRepository
                  "https://example.com/alice/foo" false
                  (url.mkURL "https" "" None "example.com" "/alice/foo" "" "")
                  (url.mkURL "https" "" None "example.com" "/alice/foo" "" "")
                  two_foos ltac:(discriminate) eq_refl eq_refl)
               None (errorString "unsupported host") eq_refl).
Defined.

(** [get alice/foo] in an empty root calls a backend, so the reference was
    parsed, resolved without error and found valid. *)
Lemma DoGet_alice_foo_valid :
  "alice/foo" <> ""
  /\ exists u0 u remote,
       url.Parse "alice/foo" = inr u0 /\ completed u0 = Some u
       /\ hosted_NewRemoteRepository u = (Some remote, None)
       /\ IsValid remote = true
       /\ DoGet tool_Clone tool_Update hosted_NewRemoteRepository
                "alice/foo" false two_foos
          = getRemoteRepository tool_Clone tool_Update remote false two_foos.
Proof.
  exact (DoGet_backend_call_requires_valid tool_Clone tool_Update
           hosted_NewRemoteRepository "alice/foo" false two_foos eq_refl).
Defined.

(** An unreadable root stops a batch at its first valid item. *)
Lemma batch_unreadable_root :
  for_each [mkPocketItem "https://github.com/alice/foo";
            mkPocketItem "https://github.com/bob/foo"]
    (DoPocket_item tool_Clone tool_Update hosted_NewRemoteRepository false)
    unreadable_world
  = (Panic (PanicError
              (EACCES_at (local_path unreadable_world github_alice_foo))),
     unreadable_world, []).
Proof.
  exact (proj1 (batch_stat_error_aborts tool_Clone tool_Update
                  hosted_NewRemoteRepository false
                  "https://github.com/alice/foo" (URL github_alice_foo)
                  github_alice_foo unreadable_world _
                  eq_refl eq_refl eq_refl eq_refl eq_refl)
               [mkPocketItem "https://github.com/bob/foo"]).
Defined.

(** With the token of the sample world [pocket] authorizes nothing. *)
Lemma DoPocket_token_configured :
  existsb authorization_event
    (trace_of (DoPocket tool_Clone tool_Update hosted_NewRemoteRepository
                        false two_foos))
  = false.
Proof.
  exact (proj1 (DoPocket_configured_token tool_Clone tool_Update
                  hosted_NewRemoteRepository false two_foos "token"
                  eq_refl ltac:(discriminate))).
Defined.

(** Without token [pocket] authorizes [alice], stores her token and
    retrieves her entry with it. *)
Lemma DoPocket_authorizes_alice :
  trace_of (DoPocket tool_Clone tool_Update hosted_NewRemoteRepository
                     false unauthorized_world)
  = [Log "pocket"
         (Text "Waiting for Pocket authentication callback at http://localhost:4321/");
     Log "pocket" (Text "Obtaining request token");
     Log "open"
         (Text "https://getpocket.com/auth/authorize?request_token=request-code&redirect_uri=http://localhost:4321/");
     Log "pocket" (Text "Obtaining access token");
     Log "authorized" (Text "alice");
     Run "git" ["config"; "ghq.pocket.token"; "access-token"];
     Log "pocket" (Text "Retrieving github.com entries");
     Log "clone"
         (Sprintf "%s -> %s"
            [ArgURL (URL github_alice_foo);
             ArgString (local_path two_foos github_alice_foo)]);
     Clone GitBackend (URL github_alice_foo)
           (local_path two_foos github_alice_foo) None].
Proof.
  rewrite (DoPocket_authorization tool_Clone tool_Update
             hosted_NewRemoteRepository false unauthorized_world
             "http://localhost:4321/" "request-code" "alice" "access-token"
             [mkPocketItem "https://github.com/alice/foo"]
             eq_refl eq_refl eq_refl eq_refl eq_refl).
  reflexivity.
Defined.

(** [list -e -p alice/foo] prints the directory [look alice/foo] enters. *)
Lemma list_exact_alice_foo :
  trace_of (DoList "alice/foo" true true false two_foos)
  = [Println (FullPath alice_foo)]
  /\ hd_error (trace_of (DoLook "alice/foo" two_foos))
     = Some (Chdir (FullPath alice_foo) (chdir two_foos (FullPath alice_foo))).
Proof.
  exact (proj2 (proj2 (list_exact_agrees_with_look
                         "alice/foo" two_foos ltac:(discriminate)))
               alice_foo eq_refl).
Defined.


Lemma tool_keeps_ListStarred : keeps_ListStarred tool_Clone tool_Update.
Proof. split; reflexivity. Qed.

(** Two pages of starred repositories are fetched in order, and the
    command ends. *)
Lemma DoStarred_two_pages :
  ended (outcome_of (DoStarred tool_Clone tool_Update hosted_NewRemoteRepository
                               2 "alice" false two_starred_pages))
  /\ exists m,
       (1 <= m <= Z.to_nat 2)%nat
       /\ page_numbers
            (trace_of (DoStarred tool_Clone tool_Update
                                 hosted_NewRemoteRepository
                                 2 "alice" false two_starred_pages))
          = pages_from 1 m
       /\ (outcome_of (DoStarred tool_Clone tool_Update
                                 hosted_NewRemoteRepository
                                 2 "alice" false two_starred_pages)
           = Return tt -> m = Z.to_nat 2).
Proof.
  refine (DoStarred_terminates tool_Clone tool_Update hosted_NewRemoteRepository
            tool_keeps_ListStarred "alice" false 2
            (fun k => nth (Z.to_nat (k - 1)) starred_pages [])
            two_starred_pages 2 ltac:(discriminate) ltac:(lia) ltac:(lia) _).
  intros k _. reflexivity.
Defined.

Example DoStarred_two_pages_numbers :
  page_numbers
    (trace_of (DoStarred tool_Clone tool_Update hosted_NewRemoteRepository
                         2 "alice" false two_starred_pages))
  = [1; 2]
  /\ outcome_of (DoStarred tool_Clone tool_Update hosted_NewRemoteRepository
                           2 "alice" false two_starred_pages)
     = Return tt.
Proof. split; reflexivity. Qed.

(** *** The filters of [list] *)

Lemma prefix_cons (a b : ascii) (s t : string) :
  String.prefix (String a s) (String b t)
  = if Ascii.ascii_dec a b then String.prefix s t else false.
Proof. reflexivity. Qed.

Lemma prefix_append (sub s : string) :
  String.prefix sub s = true <-> exists rest, s = sub +:+ rest.
Proof.
  revert s. induction sub as [|a sub IH]; intros s.
  - split; [intros _; exists s; reflexivity | destruct s; reflexivity].
  - destruct s as [|b s].
    + split; [discriminate | intros [rest Hrest]; discriminate].
    + rewrite prefix_cons. destruct (Ascii.ascii_dec a b) as [<-|Hne].
      * rewrite IH. split; intros [rest Hrest]; exists rest.
        -- rewrite Hrest. reflexivity.
        -- change (String a sub +:+ rest) with (String a (sub +:+ rest)) in Hrest.
           congruence.
      * split; [discriminate|]. intros [rest Hrest].
        change (String a sub +:+ rest) with (String a (sub +:+ rest)) in Hrest.
        congruence.
Qed.

(** [strings.Contains]: the text lies somewhere in the string. *)
Lemma Contains_append (s sub : string) :
  strings.Contains s sub = true
  <-> exists before after, s = before +:+ sub +:+ after.
Proof.
  induction s as [|c s IH].
  - cbn [strings.Contains]. rewrite orb_false_r, prefix_append. split.
    + intros [rest Hrest]. exists "", rest. exact Hrest.
    + intros ([|b before] & after & Hs); [exists after; exact Hs|].
      discriminate.
  - change (strings.Contains (String c s) sub)
      with (String.prefix sub (String c s) || strings.Contains s sub).
    rewrite orb_true_iff, prefix_append, IH. split.
    + intros [[rest Hrest]|(before & after & Hs)].
      * exists "", rest. exact Hrest.
      * exists (String c before), after. rewrite Hs. reflexivity.
    + intros ([|b before] & after & Hs).
      * left. exists after. exact Hs.
      * right. exists before, after.
        change (String b before +:+ sub +:+ after)
          with (String b (before +:+ sub +:+ after)) in Hs.
        congruence.
Qed.

Lemma length_concat_le {A B} (f : A -> list B) (l : list A) :
  (forall x, (length (f x) <= 1)%nat) ->
  (length (concat (map f l)) <= length l)%nat.
Proof.
  intros Hf. induction l as [|x l IH]; [reflexivity|].
  cbn [map concat]. rewrite length_app. cbn [length]. specialize (Hf x). lia.
Qed.

(** What [list] retains: everything without a query, whatever [-e] says;
    with [-e] the repositories the query matches; otherwise the
    repositories whose path below the host holds the query somewhere. The
    retained repositories keep their discovery order. *)
Theorem DoList_filter (query : string) (exact : bool) (w : World) :
  (query = "" -> retained query exact w = repositories w)
  /\ (forall repo, query <> "" ->
        (In repo (retained query true w)
         <-> In repo (repositories w) /\ Matches repo query = true)
        /\ (In repo (retained query false w)
            <-> In repo (repositories w)
                /\ exists before after,
                     NonHostPath repo = before +:+ query +:+ after))
  /\ sublist (retained query exact w) (repositories w)
  /\ forall printFullPaths printUniquePaths,
       (length (trace_of (DoList query exact printFullPaths printUniquePaths w))
        <= length (retained query exact w))%nat.
Proof.
  split; [|split; [|split]].
  - intros ->. unfold retained, filterFn. cbn [String.eqb].
    induction (repositories w) as [|r l IH]; [reflexivity|].
    cbn [List.filter]. rewrite IH. reflexivity.
  - intros repo Hq. unfold retained, filterFn.
    destruct (String.eqb_spec query "") as [?|_]; [contradiction|].
    rewrite !filter_In, Contains_append. split; reflexivity.
  - unfold retained. induction (repositories w) as [|r l IH]; [constructor|].
    cbn [List.filter]. destruct (filterFn query exact r);
      [apply sublist_skip | apply sublist_cons]; exact IH.
  - intros printFullPaths [|].
    + rewrite DoList_unique_run. cbn zeta. cbn [trace_of snd].
      apply length_concat_le. intros repo.
      destruct (List.find _ _); cbn [length]; lia.
    + unfold DoList.
      rewrite (bind_return_quiet _ _ _ _ _ (walk_filter (filterFn query exact) w)).
      fold (retained query exact w).
      rewrite (for_each_quiet _ _
                 (fun repo =>
                    [Println (if printFullPaths then FullPath repo
                              else RelPath repo)]) w).
      * cbn [trace_of snd]. apply length_concat_le. intros repo.
        cbn [length]. lia.
      * intros repo. destruct printFullPaths; reflexivity.
Qed.
